(** * FlexTail components: class composition, button classes, button groups
      and the alert dialog focus trap.

    The development follows the TypeScript sources:
    - the in-file [clsx]/[cn] helpers (the 404 page, [AlertDialog.tsx], [Card.tsx]);
    - [getButtonClasses] in its two shapes (object argument / positional);
    - [getColorClass] of [FlexTail-config.ts];
    - the two [ButtonGroup] components;
    - the [AlertDialog] effect, its key handler and its action buttons. *)

From Stdlib Require Import String Ascii List Bool Arith Lia ZArith.
Import ListNotations.
Open Scope string_scope.

(* ================================================================== *)
(** * Strings and tokens *)
(* ================================================================== *)

(** JavaScript truthiness of a string: only the empty string is falsy. *)
Definition truthy (s : string) : bool :=
  match s with
  | EmptyString => false
  | String _ _ => true
  end.

(** [a || b] on strings. *)
Definition or_else (a b : string) : string :=
  if truthy a then a else b.

(** [Array.prototype.join(" ")]. *)
Definition join (l : list string) : string := String.concat " " l.

Definition is_space (c : ascii) : bool := Ascii.eqb c " ".

Fixpoint no_space (s : string) : bool :=
  match s with
  | EmptyString => true
  | String c rest => negb (is_space c) && no_space rest
  end.

(** A class token: a non-empty string without a separating space. *)
Definition is_token (t : string) : bool := truthy t && no_space t.

(** Reading a space-separated class string back as its token sequence.
    [cur] is the token being read. *)
Fixpoint split_spaces (cur s : string) : list string :=
  match s with
  | EmptyString => if truthy cur then [cur] else []
  | String c rest =>
      if is_space c
      then (if truthy cur then cur :: split_spaces "" rest
            else split_spaces "" rest)
      else split_spaces (cur ++ String c "") rest
  end.

Definition tokens (s : string) : list string := split_spaces "" s.

(* ================================================================== *)
(** * The flattener: [ClassValue] and the in-file [clsx] *)
(* ================================================================== *)

(** [type ClassValue = string | number | ClassValue[] | { [key: string]: boolean }
                     | null | undefined].
    An object is kept as the sequence [Object.entries] yields; the value
    of a number is never inspected, an integer stands for it.  [VBoolean]
    is not part of the declared union; call sites nevertheless pass
    [cond && "class"], so the runtime value [false] is represented too. *)
#[warnings="-register-all"] Inductive ClassValue : Type :=
| VString (s : string)
| VNumber (n : Z)
| VArray (items : list ClassValue)
| VObject (entries : list (string * bool))
| VNull
| VUndefined
| VBoolean (b : bool).

(** The inner arrow function [const clsx = (input: ClassValue): string]. *)
Fixpoint clsx_value (input : ClassValue) : string :=
  match input with
  | VString s => s
  | VArray items => join (filter truthy (map clsx_value items))
  | VObject entries =>
      join (map fst (filter (fun e : string * bool => snd e) entries))
  | _ => ""
  end.

(** [function clsx(...inputs: ClassValue[]) { ...; return clsx(inputs); }]:
    the rest parameter is the array handed to the inner function. *)
Definition clsx (inputs : list ClassValue) : string :=
  clsx_value (VArray inputs).

Section Cn.
(** [twMerge] comes from the [tailwind-merge] package. *)
Variable twMerge : string -> string.

(** [function cn(...inputs) { return twMerge(clsx(inputs)); }]
    (404 page, [Card.tsx]): the outer [clsx] receives ONE argument, the
    array [inputs]. *)
Definition cn (inputs : list ClassValue) : string :=
  twMerge (clsx [VArray inputs]).

(** [AlertDialog.tsx] inlines the arrow function inside [cn]. *)
Definition cn_inline (inputs : list ClassValue) : string :=
  twMerge (clsx_value (VArray inputs)).
End Cn.

(** [Array.prototype.map((x, index) => ...)]: the callback also receives
    the index. *)
Fixpoint mapi_from {A B : Type} (f : nat -> A -> B) (i : nat) (l : list A)
  : list B :=
  match l with
  | [] => []
  | x :: rest => f i x :: mapi_from f (S i) rest
  end.

Definition mapi {A B : Type} (f : nat -> A -> B) (l : list A) : list B :=
  mapi_from f 0 l.

(** [o || d] where [o] may be [undefined]. *)
Definition opt_or (o : option string) (d : string) : string :=
  match o with
  | Some s => or_else s d
  | None => d
  end.

(* ================================================================== *)
(** * The merger *)
(* ================================================================== *)

Module Merger.

Section WithCategoryKey.
(** The rule set that maps a token to its conflict group; [None] for a
    token whose stem is not recognized. *)
Variable CategoryKey : string -> option string.

Definition has_key (k : string) (o : option string) : bool :=
  match o with
  | Some k' => String.eqb k k'
  | None => false
  end.

(** Modelled from the spec: [twMerge] is imported from the tailwind-merge
    package and its code is not among the sources.  Section 4.2: tokens
    are processed in order while a mapping from CategoryKey to the
    last-seen token is maintained; a token of an unrecognized stem passes
    straight to the output; a winner stands where it last appeared.  The
    ordered association list [out] is that mapping together with the
    pass-through tokens. *)
Definition merge_step (out : list (option string * string)) (t : string)
  : list (option string * string) :=
  match CategoryKey t with
  | None => out ++ [(None, t)]
  | Some k =>
      filter (fun e : option string * string => negb (has_key k (fst e))) out
      ++ [(Some k, t)]
  end.

(** Modelled from the spec: the merger on a token sequence, section 4.2;
    the output is read off the final association list. *)
Definition merge_tokens (l : list string) : list string :=
  map snd (fold_left merge_step l []).

(** Modelled from the spec: the merger reads the space-separated string,
    resolves conflicts and joins the survivors with single spaces. *)
Definition twMerge (s : string) : string :=
  join (merge_tokens (tokens s)).

(** Whether the key [o] is claimed by some token of [l]. *)
Definition claimed (l : list string) (o : option string) : bool :=
  match o with
  | Some k => existsb (fun u => has_key k (CategoryKey u)) l
  | None => false
  end.

(** The survivors, written as a recursion on the input: a token is
    dropped exactly when a later token has its CategoryKey. *)
Definition overridden (t : string) (later : list string) : bool :=
  match CategoryKey t with
  | None => false
  | Some k => existsb (fun u => has_key k (CategoryKey u)) later
  end.

Fixpoint keep_last (l : list string) : list string :=
  match l with
  | [] => []
  | t :: rest =>
      if overridden t rest then keep_last rest else t :: keep_last rest
  end.

End WithCategoryKey.

(** Modelled from the spec: a CategoryKey is the token without its value
    suffix, prefix and stem retained; here the part before the first
    dash.  A token without a dash has no recognized stem. *)
Definition stem_key (t : string) : option string :=
  match String.index 0 "-" t with
  | Some n => Some (String.substring 0 n t)
  | None => None
  end.

End Merger.

(* ================================================================== *)
(** * Button classes with an object argument (404 page) *)
(* ================================================================== *)

Module NotFoundPage.

Inductive ButtonVariant := primary | secondary | subtle | outline | ghost | link.
Inductive ButtonShape := square | rounded | squircle | circle.
Inductive ButtonSize := xs | sm | md | lg | xl.

(** The argument of [getButtonClasses].  A missing property is [None];
    [color] is kept as the string that reaches [colorMap[color]], so that
    keys outside [colorMap] can be written. *)
Record ButtonProps := {
  variant : option ButtonVariant;
  size : option ButtonSize;
  color : option string;
  shape : option ButtonShape;
  loading : bool;
  disabled : bool
}.

Definition base : string :=
  "font-semibold transition-all duration-200 focus:outline-none focus-visible:ring-4 focus-visible:ring-offset-2".

Definition sizeClasses (s : ButtonSize) : string :=
  match s with
  | xs => "h-6 px-2 text-xs"
  | sm => "h-8 px-3 text-sm"
  | md => "h-10 px-4 text-sm"
  | lg => "h-12 px-6 text-base"
  | xl => "h-14 px-8 text-lg"
  end.

Definition shapeClasses (s : ButtonShape) : string :=
  match s with
  | square => "rounded-lg"
  | rounded => "rounded-full"
  | squircle => "rounded-xl"
  | circle => "rounded-full aspect-square p-0"
  end.

Record ColorEntry := { entry_primary : string; entry_outline : string }.

Definition colorMap_blue : ColorEntry :=
  {| entry_primary :=
       "bg-blue-600 text-white hover:bg-blue-700 dark:bg-blue-500 dark:hover:bg-blue-600 focus-visible:ring-blue-500";
     entry_outline :=
       "border border-blue-600 text-blue-600 hover:bg-blue-50 dark:border-blue-500 dark:text-blue-400 dark:hover:bg-slate-700" |}.

Definition colorMap_gray : ColorEntry :=
  {| entry_primary :=
       "bg-gray-600 text-white hover:bg-gray-700 dark:bg-gray-500 dark:hover:bg-gray-600 focus-visible:ring-gray-500";
     entry_outline :=
       "border border-gray-300 text-gray-700 hover:bg-gray-50 dark:border-slate-600 dark:text-gray-300 dark:hover:bg-slate-700" |}.

(** [colorMap[color]] followed by an optional-chained property read: the
    literal has the two keys [blue] and [gray]; any other key yields
    [undefined] for the property. *)
Definition colorMap (c : string) : option ColorEntry :=
  if String.eqb c "blue" then Some colorMap_blue
  else if String.eqb c "gray" then Some colorMap_gray
  else None.

Definition variantMap (c : string) (v : ButtonVariant) : string :=
  match v with
  | primary =>
      opt_or (option_map entry_primary (colorMap c)) (entry_primary colorMap_blue)
  | outline =>
      opt_or (option_map entry_outline (colorMap c)) (entry_outline colorMap_blue)
  | secondary =>
      "bg-gray-100 text-gray-700 hover:bg-gray-200 dark:bg-gray-800 dark:text-gray-100 dark:hover:bg-gray-700"
  | subtle =>
      "bg-transparent text-gray-700 hover:bg-gray-100 dark:text-gray-300 dark:hover:bg-slate-700"
  | ghost =>
      "bg-transparent text-gray-700 hover:text-blue-600 dark:text-gray-300 dark:hover:text-blue-400"
  | link =>
      "bg-transparent text-blue-600 hover:text-blue-700 underline dark:text-blue-400 dark:hover:text-blue-300"
  end.

Definition default_color : string := "blue".

(** The same properties with another [color]. *)
Definition with_color (p : ButtonProps) (c : option string) : ButtonProps :=
  {| variant := variant p; size := size p; color := c; shape := shape p;
     loading := loading p; disabled := disabled p |}.

Section WithMerge.
Variable twMerge : string -> string.

Definition getButtonClasses (p : ButtonProps) : string :=
  let variant := match variant p with Some v => v | None => primary end in
  let size := match size p with Some s => s | None => md end in
  let color := match color p with Some c => c | None => default_color end in
  let shape := match shape p with Some s => s | None => rounded end in
  let disabledClasses :=
    if disabled p || loading p then "opacity-50 cursor-not-allowed" else "" in
  let finalVariantClass :=
    or_else (variantMap color variant) (variantMap color primary) in
  cn twMerge
    [ VString base;
      VString (sizeClasses size);
      VString (shapeClasses shape);
      VString finalVariantClass;
      VString disabledClasses;
      VString (if loading p then "pointer-events-none" else "") ].

End WithMerge.

End NotFoundPage.

(* ================================================================== *)
(** * [FlexTail-config.ts]: palette colours *)
(* ================================================================== *)

Module FlexTailConfig.

Definition TAILWIND_COLORS : list string :=
  [ "red"; "orange"; "amber"; "yellow"; "lime"; "green"; "emerald"; "teal";
    "cyan"; "sky"; "blue"; "indigo"; "violet"; "purple"; "fuchsia"; "pink";
    "rose"; "slate"; "gray"; "zinc"; "neutral"; "stone" ].

(** [TAILWIND_COLORS.includes(color)]. *)
Definition includes (l : list string) (x : string) : bool :=
  existsb (String.eqb x) l.

(** A template literal whose only hole is [${c}]: the fixed pieces joined
    by the colour. *)
Definition template (c : string) (pieces : list string) : string :=
  String.concat c pieces.

(** The entry [variants.primary]. *)
Definition variants_primary (c : string) : string :=
  template c ["bg-"; "-600 text-white hover:bg-"; "-700 dark:bg-";
              "-500 dark:hover:bg-"; "-400 shadow-sm"].

(** The object literal [variants]; the lookup [variants[variant]] is
    modelled on its own keys. *)
Definition variants (c variant : string) : option string :=
  if String.eqb variant "primary" then Some (variants_primary c)
  else if String.eqb variant "secondary" then
    Some (template c ["bg-"; "-100 text-"; "-900 hover:bg-"; "-200 dark:bg-";
                      "-900/40 dark:text-"; "-100 dark:hover:bg-"; "-900/60"])
  else if String.eqb variant "tertiary" then
    Some (template c ["bg-"; "-50 text-"; "-700 hover:bg-"; "-100 dark:bg-";
                      "-900/20 dark:text-"; "-200"])
  else if String.eqb variant "outline" then
    Some (template c ["border-2 border-"; "-500 text-"; "-600 hover:bg-";
                      "-50 dark:border-"; "-400 dark:text-";
                      "-400 dark:hover:bg-"; "-950"])
  else if String.eqb variant "ghost" then
    Some (template c ["text-"; "-600 hover:bg-"; "-50 dark:text-";
                      "-400 dark:hover:bg-"; "-900/50"])
  else if String.eqb variant "link" then
    Some (template c ["text-"; "-600 underline-offset-4 hover:underline decoration-";
                      "-600 p-0 h-auto dark:text-"; "-400"])
  else if String.eqb variant "grayscale" then
    Some "bg-gray-200 text-gray-800 hover:bg-gray-300 dark:bg-gray-800 dark:text-gray-200 dark:hover:bg-gray-700"
  else if String.eqb variant "binary" then
    Some "bg-black text-white hover:bg-neutral-800 dark:bg-white dark:text-black dark:hover:bg-neutral-200"
  else None.

(** The returned object [{ style, className }]; [style] as the list of
    its custom properties. *)
Record ColorClass := {
  style : list (string * string);
  className : string
}.

Definition getColorClass (color variant : string) (isDark : bool) : ColorClass :=
  let isTailwind := includes TAILWIND_COLORS color in
  if negb isTailwind then
    {| style := [("--btn-color", color)];
       className :=
         if String.eqb variant "outline" then
           "border-[var(--btn-color)] text-[var(--btn-color)]"
         else if String.eqb variant "ghost" then
           "text-[var(--btn-color)] hover:bg-[var(--btn-color)]/10"
         else if String.eqb variant "link" then
           "text-[var(--btn-color)] decoration-[var(--btn-color)]"
         else "bg-[var(--btn-color)] text-white" |}
  else
    let c := color in
    {| style := [];
       className :=
         opt_or (variants c variant) (variants_primary c) |}.

(** The colour a [Button] of the config-based button file gets when none
    is passed ([color = "indigo"]). *)
Definition Button_default_color : string := "indigo".

End FlexTailConfig.

(* ================================================================== *)
(** * Button classes with positional arguments ([flextail-utils]) *)
(* ================================================================== *)

Module FlextailUtils.

Inductive ButtonVariant := primary | secondary | ghost | link.
Inductive ButtonShape := squircle | circle | square.
Inductive ButtonSize := sm | md | lg.
Inductive ButtonColor := blue | red | green | yellow | gray.
Inductive ButtonType :=
| type_button | type_submit | type_reset | type_default
| type_add | type_error | type_accept | type_danger.

Record ColorMap := {
  primaryBg : string;
  hoverPrimaryBg : string;
  secondaryBg : string;
  hoverSecondaryBg : string;
  text : string;
  focusRing : string
}.

Definition COLOR_MAPS (c : ButtonColor) : ColorMap :=
  match c with
  | blue =>
      {| primaryBg := "bg-blue-600";
         hoverPrimaryBg := "hover:bg-blue-700";
         secondaryBg := "bg-blue-100 dark:bg-blue-900/50";
         hoverSecondaryBg := "hover:bg-blue-200 dark:hover:bg-blue-800/50";
         text := "text-blue-600 dark:text-blue-300";
         focusRing := "focus:ring-blue-500" |}
  | red =>
      {| primaryBg := "bg-red-600";
         hoverPrimaryBg := "hover:bg-red-700";
         secondaryBg := "bg-red-100 dark:bg-red-900/50";
         hoverSecondaryBg := "hover:bg-red-200 dark:hover:bg-red-800/50";
         text := "text-red-600 dark:text-red-300";
         focusRing := "focus:ring-red-500" |}
  | green =>
      {| primaryBg := "bg-green-600";
         hoverPrimaryBg := "hover:bg-green-700";
         secondaryBg := "bg-green-100 dark:bg-green-900/50";
         hoverSecondaryBg := "hover:bg-green-200 dark:hover:bg-green-800/50";
         text := "text-green-600 dark:text-green-300";
         focusRing := "focus:ring-green-500" |}
  | yellow =>
      {| primaryBg := "bg-yellow-600";
         hoverPrimaryBg := "hover:bg-yellow-700";
         secondaryBg := "bg-yellow-100 dark:bg-yellow-900/50";
         hoverSecondaryBg := "hover:bg-yellow-200 dark:hover:bg-yellow-800/50";
         text := "text-yellow-600 dark:text-yellow-300";
         focusRing := "focus:ring-yellow-500" |}
  | gray =>
      {| primaryBg := "bg-gray-700";
         hoverPrimaryBg := "hover:bg-gray-800";
         secondaryBg := "bg-gray-200 dark:bg-gray-700/50";
         hoverSecondaryBg := "hover:bg-gray-300 dark:hover:bg-gray-600/50";
         text := "text-gray-700 dark:text-gray-200";
         focusRing := "focus:ring-gray-400" |}
  end.

Definition disabled_classes : string :=
  "bg-gray-200 text-gray-400 dark:bg-gray-700 dark:text-gray-500 cursor-not-allowed shadow-none".

Section WithCn.
(** This file takes [clsx] from the clsx package and [twMerge] from
    tailwind-merge; their composition [cn] is a parameter. *)
Variable cn : list ClassValue -> string.

(** The [default] branch of the [switch] is not reachable for a
    [ButtonVariant]. *)
Definition getButtonClasses (variant : ButtonVariant) (color : ButtonColor)
  (type : ButtonType) (isDisabled : bool) : string :=
  if isDisabled then disabled_classes
  else
    let colors := COLOR_MAPS color in
    match variant with
    | primary =>
        cn [ VString (primaryBg colors); VString (hoverPrimaryBg colors);
             VString "text-white shadow-md shadow-black/10";
             VString (focusRing colors) ]
    | secondary =>
        cn [ VString (secondaryBg colors); VString (hoverSecondaryBg colors);
             VString (text colors); VString "border border-transparent";
             VString (focusRing colors) ]
    | ghost =>
        cn [ VString "bg-transparent hover:bg-gray-50 dark:hover:bg-gray-800";
             VString (text colors); VString "border border-transparent";
             VString (focusRing colors) ]
    | link =>
        cn [ VString "bg-transparent"; VString (text colors);
             VString "hover:underline"; VString "p-0 shadow-none";
             VString (focusRing colors) ]
    end.

(** The properties of a [Button] ([Button.tsx]) that decide its variant
    class; a missing property is [None], a missing flag [false]. *)
Record ButtonProps := {
  variant : option ButtonVariant;
  color : option ButtonColor;
  type : option ButtonType;
  loading : bool;
  disabled : bool
}.

(** [const isDisabled = disabled || loading;
     const variantClass = getButtonClasses(variant, color, type, isDisabled);] *)
Definition Button_variantClass (p : ButtonProps) : string :=
  let variant := match variant p with Some v => v | None => primary end in
  let color := match color p with Some c => c | None => blue end in
  let type := match type p with Some t => t | None => type_default end in
  let isDisabled := disabled p || loading p in
  getButtonClasses variant color type isDisabled.

End WithCn.

End FlextailUtils.

(* ================================================================== *)
(** * Button groups *)
(* ================================================================== *)

Module React.

(** The entries of [React.Children.toArray(children)]: elements of some
    component type, or text. *)
Inductive component := ButtonComponent | OtherComponent (name : string).

Inductive child :=
| Element (type : component) (key : nat)
| Text (s : string).

Definition isValidElement (c : child) : bool :=
  match c with
  | Element _ _ => true
  | Text _ => false
  end.

Definition isButton (c : child) : bool :=
  match c with
  | Element ButtonComponent _ => true
  | _ => false
  end.

End React.

(** [ButtonGroup] of [Button.tsx]. *)
Module ButtonTsx.

Inductive GroupPosition := first | middle | last | single.

Record ButtonGroupContextProps := {
  isGrouped : bool;
  groupPosition : option GroupPosition
}.

(** The body of the [map] callback that picks the tag. *)
Definition position_at (len index : nat) : GroupPosition :=
  if Nat.eqb len 1 then single
  else if Nat.eqb index 0 then first
  else if Nat.eqb index (len - 1) then last
  else middle.

(** The providers rendered by [ButtonGroup], in order; [None] when the
    component returns [null]. *)
Definition ButtonGroup (children : list React.child)
  : option (list (ButtonGroupContextProps * React.child)) :=
  let buttons := filter React.isButton children in
  if Nat.eqb (length buttons) 0 then None
  else
    Some (mapi (fun index child =>
                  ({| isGrouped := true;
                      groupPosition := Some (position_at (length buttons) index) |},
                   child))
               buttons).

Definition positions (children : list React.child) : list (option GroupPosition) :=
  match ButtonGroup children with
  | Some providers => map (fun pc => groupPosition (fst pc)) providers
  | None => []
  end.

End ButtonTsx.

(** [ButtonGroup] of the context-based button file (also [ButtonGroup.tsx]). *)
Module GroupedButton.

Inductive GroupDirection := vertical | horizontal.
Inductive GroupPosition := first | middle | last | none.

Record ButtonGroupContextProps := {
  isGrouped : bool;
  groupDirection : GroupDirection;
  groupRadius : string;
  groupPosition : GroupPosition;
  groupColor : option string;
  groupVariant : option string;
  groupActiveColor : option string
}.

Definition defaultContext : ButtonGroupContextProps :=
  {| isGrouped := false;
     groupDirection := horizontal;
     groupRadius := "md";
     groupPosition := none;
     groupColor := None;
     groupVariant := None;
     groupActiveColor := None |}.

Definition position_at (len index : nat) : GroupPosition :=
  if Nat.eqb index 0 then first
  else if Nat.eqb index (len - 1) then last
  else middle.

Record ButtonGroupProps := {
  direction : option GroupDirection;
  radius : option string;
  color : option string;
  variant : option string;
  activeColor : option string
}.

Definition ButtonGroup (props : ButtonGroupProps) (children : list React.child)
  : list (ButtonGroupContextProps * React.child) :=
  let direction := match direction props with Some d => d | None => horizontal end in
  let radius := match radius props with Some r => r | None => "md" end in
  let childrenArray := filter React.isValidElement children in
  mapi (fun index child =>
          ({| isGrouped := true;
              groupDirection := direction;
              groupRadius := radius;
              groupPosition := position_at (length childrenArray) index;
              groupColor := color props;
              groupVariant := variant props;
              groupActiveColor := activeColor props |},
           child))
       childrenArray.

Definition positions (props : ButtonGroupProps) (children : list React.child)
  : list GroupPosition :=
  map (fun pc => groupPosition (fst pc)) (ButtonGroup props children).

End GroupedButton.

(* ================================================================== *)
(** * [AlertDialog.tsx]: rendering, the open effect and the key handler *)
(* ================================================================== *)

Module AlertDialog.

(** ** The rendered subtree *)

(** A DOM element, with the attributes the selectors of this file read
    and whether it is disabled. *)
Record element := {
  tag : string;
  href : option string;
  tabindex : option string;
  data_default : option string;
  is_disabled : bool
}.

Definition plain (name : string) : element :=
  {| tag := name; href := None; tabindex := None; data_default := None;
     is_disabled := false |}.

Record AlertDialogAction := {
  label : string;
  variant : option NotFoundPage.ButtonVariant;
  color : option string;
  loading : bool;
  disabled : bool;
  isDefault : bool;
  isDestructive : bool
}.

(** The [<button>] element the file's [Button] renders: [disabled] is
    [disabled || loading], and the remaining properties, [data-default]
    among them, are spread onto it. *)
Definition button_element (dataDefault : option string) (loading disabled : bool)
  : element :=
  {| tag := "button"; href := None; tabindex := None;
     data_default := dataDefault;
     is_disabled := disabled || loading |}.

Definition LoadingSpinnerSVG : list element :=
  [plain "svg"; plain "circle"; plain "path"].

(** [Button]: the [<button>], its inner [<div>], the spinner when
    [loading], and a [<span>] around non-empty children. *)
Definition Button (dataDefault : option string) (loading disabled : bool)
  (hasChildren : bool) (children : list element) : list element :=
  button_element dataDefault loading disabled
  :: plain "div"
  :: (if loading then LoadingSpinnerSVG else [])
  ++ (if hasChildren then plain "span" :: children else []).

(** The body of [actions.map((action, index) => ...)]. *)
Definition isDefaultButton (len index : nat) (action : AlertDialogAction) : bool :=
  isDefault action || Nat.eqb index (len - 1).

Definition action_data_default (len index : nat) (action : AlertDialogAction)
  : option string :=
  if isDefaultButton len index action then Some "true" else None.

Definition action_button (len index : nat) (action : AlertDialogAction) : element :=
  button_element (action_data_default len index action)
                 (loading action) (disabled action).

Definition render_action (len index : nat) (action : AlertDialogAction)
  : list element :=
  Button (action_data_default len index action) (loading action)
         (disabled action) (truthy (label action)) [].

Definition close_button : list element :=
  Button None false false true [plain "svg"; plain "path"].

(** The descendants of the [role="alertdialog"] element in document
    order; [title] and [description] are whatever the caller passes. *)
Definition dialog_descendants (title description : list element)
  (actions : list AlertDialogAction) : list element :=
  close_button
  ++ plain "h2" :: title
  ++ plain "p" :: description
  ++ plain "div" :: concat (mapi (render_action (length actions)) actions).

(** ** Selectors *)

(** ['[data-default="true"]']. *)
Definition matches_default (e : element) : bool :=
  match data_default e with
  | Some v => String.eqb v "true"
  | None => false
  end.

Definition form_tag (e : element) : bool :=
  String.eqb (tag e) "button" || String.eqb (tag e) "input"
  || String.eqb (tag e) "select" || String.eqb (tag e) "textarea".

Definition has_href (e : element) : bool :=
  match href e with Some _ => true | None => false end.

(** ["button, [href], input, select, textarea"]. *)
Definition matches_focusable (e : element) : bool :=
  form_tag e || has_href e.

(** ['button, [href], input, select, textarea, [tabindex]:not([tabindex="-1"])']. *)
Definition matches_tabbable (e : element) : bool :=
  matches_focusable e
  || match tabindex e with
     | Some v => negb (String.eqb v "-1")
     | None => false
     end.

(** An element of the subtree is identified by its place in document
    order. *)
Fixpoint select_from (sel : element -> bool) (i : nat) (els : list element)
  : list nat :=
  match els with
  | [] => []
  | e :: rest =>
      if sel e then i :: select_from sel (S i) rest
      else select_from sel (S i) rest
  end.

Definition querySelectorAll (sel : element -> bool) (els : list element)
  : list nat :=
  select_from sel 0 els.

Definition querySelector (sel : element -> bool) (els : list element)
  : option nat :=
  hd_error (querySelectorAll sel els).

(** Document-order readings of a selector over the subtree: the first
    and the last matching descendant, and the absence of any match. *)
Definition matches_at (sel : element -> bool) (els : list element) (i : nat)
  : Prop :=
  exists e, nth_error els i = Some e /\ sel e = true.

Definition first_match (sel : element -> bool) (els : list element) (i : nat)
  : Prop :=
  matches_at sel els i /\ forall j, j < i -> ~ matches_at sel els j.

Definition last_match (sel : element -> bool) (els : list element) (i : nat)
  : Prop :=
  matches_at sel els i /\ forall j, i < j -> ~ matches_at sel els j.

Definition no_match (sel : element -> bool) (els : list element) : Prop :=
  forall i, ~ matches_at sel els i.

(** ** Focus state *)

Inductive node :=
| Outside (n : nat)     (* an element of the page outside the dialog *)
| Container             (* the [role="alertdialog"] element *)
| Descendant (i : nat). (* its i-th descendant in document order *)

Definition node_eqb (a b : node) : bool :=
  match a, b with
  | Outside n, Outside m => Nat.eqb n m
  | Container, Container => true
  | Descendant i, Descendant j => Nat.eqb i j
  | _, _ => false
  end.

Record state := {
  activeElement : option node;        (* document.activeElement *)
  triggerElementRef : option node;    (* triggerElementRef.current *)
  listening : bool;                   (* the keydown listener is attached *)
  dialogRef : option (list element)   (* dialogRef.current, by its descendants *)
}.

(** Whether [el.focus()] takes effect.  A disabled control is not
    focusable, and neither is a descendant that is not in the mounted
    subtree: the call then returns without moving the focus.  The
    container carries [tabIndex={-1}]; it, an element outside the dialog
    and a descendant that is not disabled are taken to accept the call. *)
Definition accepts_focus (st : state) (n : node) : bool :=
  match n with
  | Descendant i =>
      match dialogRef st with
      | Some els =>
          match nth_error els i with
          | Some e => negb (is_disabled e)
          | None => false
          end
      | None => false
      end
  | Container => true
  | Outside _ => true
  end.

(** [el.focus()]: the element becomes the document's active element when
    it accepts the focus; otherwise nothing changes. *)
Definition focus (n : node) (st : state) : state :=
  if accepts_focus st n then
    {| activeElement := Some n;
       triggerElementRef := triggerElementRef st;
       listening := listening st;
       dialogRef := dialogRef st |}
  else st.

(** The synchronous part of the effect when [isOpen] is true. *)
Definition effect_open (st : state) : state :=
  {| activeElement := activeElement st;
     triggerElementRef := activeElement st;
     listening := true;
     dialogRef := dialogRef st |}.

(** Which node the animation-frame callback focuses. *)
Definition initial_focus (els : list element) : node :=
  match querySelector matches_default els with
  | Some d => Descendant d
  | None =>
      match querySelector matches_focusable els with
      | Some f => Descendant f
      | None => Container
      end
  end.

(** The callback handed to [requestAnimationFrame]. *)
Definition animation_frame (st : state) : state :=
  match dialogRef st with
  | Some els => focus (initial_focus els) st
  | None => st
  end.

(** A closed-to-open transition: the effect, then its animation frame. *)
Definition open_dialog (st : state) : state :=
  animation_frame (effect_open st).

(** The cleanup returned by the effect. *)
Definition effect_cleanup (st : state) : state :=
  let st' := {| activeElement := activeElement st;
                triggerElementRef := triggerElementRef st;
                listening := false;
                dialogRef := dialogRef st |} in
  match triggerElementRef st with
  | Some n => focus n st'
  | None => st'
  end.

(** ** The key handler *)

Record KeyboardEvent := { key : string; shiftKey : bool }.

Record handled := {
  after : state;
  defaultPrevented : bool;   (* event.preventDefault() was called *)
  closeCalls : nat           (* calls of the onClose callback *)
}.

Definition unhandled (st : state) : handled :=
  {| after := st; defaultPrevented := false; closeCalls := 0 |}.

Definition is_active (st : state) (i : nat) : bool :=
  match activeElement st with
  | Some n => node_eqb n (Descendant i)
  | None => false
  end.

Definition handleKeyDown (event : KeyboardEvent) (st : state) : handled :=
  if String.eqb (key event) "Escape" then
    {| after := st; defaultPrevented := false; closeCalls := 1 |}
  else if String.eqb (key event) "Tab" then
    match dialogRef st with
    | Some els =>
        let focusableElements := querySelectorAll matches_tabbable els in
        match focusableElements with
        | [] => unhandled st
        | first :: _ =>
            let last := List.last focusableElements first in
            if shiftKey event then
              if is_active st first then
                {| after := focus (Descendant last) st;
                   defaultPrevented := true; closeCalls := 0 |}
              else unhandled st
            else
              if is_active st last then
                {| after := focus (Descendant first) st;
                   defaultPrevented := true; closeCalls := 0 |}
              else unhandled st
        end
    | None => unhandled st
    end
  else unhandled st.

(** A keydown event reaches the handler only while it is attached. *)
Definition keydown (event : KeyboardEvent) (st : state) : handled :=
  if listening st then handleKeyDown event st else unhandled st.

End AlertDialog.

(* ================================================================== *)
(** * The flattener, read as a token sequence *)
(* ================================================================== *)

(** The class tokens a value holds, depth-first and left to right: the
    tokens of every string, those of every key whose value is true, and
    nothing for the other values. *)
Fixpoint leaf_tokens (v : ClassValue) : list string :=
  match v with
  | VString s => tokens s
  | VArray items => flat_map leaf_tokens items
  | VObject entries =>
      flat_map (fun e : string * bool => if snd e then tokens (fst e) else [])
               entries
  | _ => []
  end.

(** A class string in normal form: its tokens joined by single spaces, so
    without leading, trailing or doubled spaces. *)
Definition normalized (s : string) : bool :=
  String.eqb s (join (tokens s)).

(** Every string of the value is in normal form, and every key with a
    true value is a non-empty string in normal form. *)
Fixpoint normalized_leaves (v : ClassValue) : bool :=
  match v with
  | VString s => normalized s
  | VArray items => forallb normalized_leaves items
  | VObject entries =>
      forallb (fun e : string * bool =>
                 negb (snd e) || (truthy (fst e) && normalized (fst e)))
              entries
  | _ => true
  end.

(* ================================================================== *)
(** * [AlertDialog.tsx]: a run of key events *)
(* ================================================================== *)

Module AlertDialogEvents.

(** The keydown events of a list dispatched one after the other; the
    result is the final state and the number of calls of the close
    callback. *)
Fixpoint keydowns (events : list AlertDialog.KeyboardEvent)
  (st : AlertDialog.state) : AlertDialog.state * nat :=
  match events with
  | [] => (st, 0)
  | event :: rest =>
      let r := AlertDialog.keydown event st in
      let (st', n) := keydowns rest (AlertDialog.after r) in
      (st', AlertDialog.closeCalls r + n)
  end.

Definition is_escape (event : AlertDialog.KeyboardEvent) : bool :=
  String.eqb (AlertDialog.key event) "Escape".

End AlertDialogEvents.

(* ================================================================== *)
(** * [AlertDialog.tsx]: the file's own [Button] and its classes *)
(* ================================================================== *)

Module AlertDialogButton.

(** The variant, size and shape unions, [base], [sizeClasses] and
    [shapeClasses] of this file are those of the 404 page. *)
Record ColorEntry := {
  entry_primary : string;
  entry_secondary : string;
  entry_danger : string
}.

Definition colorMap_blue : ColorEntry :=
  {| entry_primary :=
       "bg-blue-600 text-white hover:bg-blue-700 focus-visible:ring-blue-500";
     entry_secondary :=
       "bg-blue-100 text-blue-700 hover:bg-blue-200 dark:bg-blue-800 dark:text-blue-100 dark:hover:bg-blue-700";
     entry_danger :=
       "bg-red-600 text-white hover:bg-red-700 focus-visible:ring-red-500" |}.

(** [colorMap[color]] with an optional-chained property read; the
    literal has the one key [blue]. *)
Definition colorMap (c : string) : option ColorEntry :=
  if String.eqb c "blue" then Some colorMap_blue else None.

Definition variantMap (c : string) (v : NotFoundPage.ButtonVariant) : string :=
  match v with
  | NotFoundPage.primary =>
      opt_or (option_map entry_primary (colorMap c)) (entry_primary colorMap_blue)
  | NotFoundPage.secondary =>
      opt_or (option_map entry_secondary (colorMap c))
             (entry_secondary colorMap_blue)
  | NotFoundPage.subtle =>
      "bg-transparent text-gray-700 hover:bg-gray-100 dark:text-gray-300 dark:hover:bg-slate-700"
  | NotFoundPage.outline =>
      "bg-transparent border border-gray-300 text-gray-700 hover:bg-gray-50 dark:border-slate-600 dark:text-gray-300 dark:hover:bg-slate-700"
  | NotFoundPage.ghost =>
      "bg-transparent text-gray-700 hover:text-blue-600 dark:text-gray-300 dark:hover:text-blue-400"
  | NotFoundPage.link =>
      "bg-transparent text-blue-600 hover:text-blue-700 underline dark:text-blue-400 dark:hover:text-blue-300"
  end.

Section WithMerge.
Variable twMerge : string -> string.

(** [getButtonClasses] of [AlertDialog.tsx]; [cn] is the inlined one and
    [disabledClasses] reads [disabled] alone. *)
Definition getButtonClasses (p : NotFoundPage.ButtonProps) : string :=
  let variant :=
    match NotFoundPage.variant p with Some v => v | None => NotFoundPage.primary end in
  let size :=
    match NotFoundPage.size p with Some s => s | None => NotFoundPage.md end in
  let color :=
    match NotFoundPage.color p with Some c => c | None => "blue" end in
  let shape :=
    match NotFoundPage.shape p with Some s => s | None => NotFoundPage.rounded end in
  let disabledClasses :=
    if NotFoundPage.disabled p then "opacity-50 cursor-not-allowed" else "" in
  let finalVariantClass :=
    or_else (variantMap color variant) (variantMap color NotFoundPage.primary) in
  cn_inline twMerge
    [ VString NotFoundPage.base;
      VString (NotFoundPage.sizeClasses size);
      VString (NotFoundPage.shapeClasses shape);
      VString finalVariantClass;
      VString disabledClasses;
      VString (if NotFoundPage.loading p then "pointer-events-none" else "") ].

(** [finalClassName] of the file's [Button]: the defaults are applied by
    the destructuring, and [disabled: isDisabled] is handed on. *)
Definition Button_className (p : NotFoundPage.ButtonProps)
  (className : option string) : string :=
  let variant :=
    match NotFoundPage.variant p with Some v => v | None => NotFoundPage.primary end in
  let size :=
    match NotFoundPage.size p with Some s => s | None => NotFoundPage.md end in
  let color :=
    match NotFoundPage.color p with Some c => c | None => "blue" end in
  let shape :=
    match NotFoundPage.shape p with Some s => s | None => NotFoundPage.rounded end in
  let isDisabled := NotFoundPage.disabled p || NotFoundPage.loading p in
  cn_inline twMerge
    [ VString (getButtonClasses
                 {| NotFoundPage.variant := Some variant;
                    NotFoundPage.size := Some size;
                    NotFoundPage.color := Some color;
                    NotFoundPage.shape := Some shape;
                    NotFoundPage.loading := NotFoundPage.loading p;
                    NotFoundPage.disabled := isDisabled |});
      match className with Some c => VString c | None => VUndefined end;
      VString "flex items-center justify-center" ].

(** The properties [actions.map] passes to the [Button] of an action. *)
Definition action_props (action : AlertDialog.AlertDialogAction)
  : NotFoundPage.ButtonProps :=
  let buttonVariant :=
    if AlertDialog.isDestructive action then NotFoundPage.primary
    else match AlertDialog.variant action with
         | Some v => v
         | None => NotFoundPage.outline
         end in
  let buttonColor :=
    if AlertDialog.isDestructive action then "red"
    else opt_or (AlertDialog.color action) "gray" in
  {| NotFoundPage.variant := Some buttonVariant;
     NotFoundPage.size := Some NotFoundPage.md;
     NotFoundPage.color := Some buttonColor;
     NotFoundPage.shape := None;
     NotFoundPage.loading := AlertDialog.loading action;
     NotFoundPage.disabled := AlertDialog.disabled action |}.

Definition action_className (action : AlertDialog.AlertDialogAction) : string :=
  Button_className (action_props action) (Some "w-full sm:w-auto").

End WithMerge.

End AlertDialogButton.

(* ================================================================== *)
(** * JavaScript objects as property lists *)
(* ================================================================== *)

Module JsObject.

Inductive value :=
| JString (s : string)
| JBoolean (b : bool)
| JUndefined
| JFunction (id : nat)
| JRef (id : nat).

(** An object as the list of its property writes; a later write of a key
    overrides an earlier one. *)
Definition object := list (string * value).

(** [o[k]], [None] when [o] has no property [k]. *)
Fixpoint get (k : string) (o : object) : option value :=
  match o with
  | [] => None
  | (k', v) :: rest =>
      match get k rest with
      | Some w => Some w
      | None => if String.eqb k k' then Some v else None
      end
  end.

(** [delete o[k]]. *)
Definition remove (k : string) (o : object) : object :=
  filter (fun e : string * value => negb (String.eqb k (fst e))) o.

(** [o[k] = v]. *)
Definition set (k : string) (v : value) (o : object) : object :=
  (o ++ [(k, v)])%list.

(** [{ ...a, ...b }] and [Object.assign(a, b)]. *)
Definition spread (a b : object) : object := (a ++ b)%list.

(** The rest of a destructuring: the properties not named in it. *)
Definition rest_without (names : list string) (o : object) : object :=
  fold_left (fun acc k => remove k acc) names o.

End JsObject.

(* ================================================================== *)
(** * [Button.tsx]: the shape class, the icon and the element *)
(* ================================================================== *)

Module ButtonRender.

Definition baseStyles : string :=
  "inline-flex items-center justify-center font-medium transition-all duration-200 focus:outline-none focus:ring-4 focus:ring-offset-2 focus:ring-opacity-50 disabled:opacity-50 disabled:pointer-events-none".

Definition shapeStyles (s : FlextailUtils.ButtonShape) : string :=
  match s with
  | FlextailUtils.squircle => "rounded-xl"
  | FlextailUtils.circle => "rounded-full aspect-square"
  | FlextailUtils.square => "rounded-lg"
  end.

Definition buttonSizeStyles (s : FlextailUtils.ButtonSize) : string :=
  match s with
  | FlextailUtils.sm => "px-3 py-1.5 text-sm"
  | FlextailUtils.md => "px-4 py-2 text-base"
  | FlextailUtils.lg => "px-6 py-3 text-lg"
  end.

Definition iconSizeStyles (s : FlextailUtils.ButtonSize) : string :=
  match s with
  | FlextailUtils.sm => "h-4 w-4"
  | FlextailUtils.md => "h-5 w-5"
  | FlextailUtils.lg => "h-6 w-6"
  end.

Definition iconImageSizeStyles (s : FlextailUtils.ButtonSize) : string :=
  match s with
  | FlextailUtils.sm => "h-5 w-5 rounded-md"
  | FlextailUtils.md => "h-6 w-6 rounded-lg"
  | FlextailUtils.lg => "h-7 w-7 rounded-xl"
  end.

(** The value of [ButtonGroupContext] outside a group. *)
Definition defaultContext : ButtonTsx.ButtonGroupContextProps :=
  {| ButtonTsx.isGrouped := false; ButtonTsx.groupPosition := None |}.

Definition is_position (p : ButtonTsx.GroupPosition)
  (o : option ButtonTsx.GroupPosition) : bool :=
  match o, p with
  | Some ButtonTsx.first, ButtonTsx.first => true
  | Some ButtonTsx.middle, ButtonTsx.middle => true
  | Some ButtonTsx.last, ButtonTsx.last => true
  | Some ButtonTsx.single, ButtonTsx.single => true
  | _, _ => false
  end.

Definition is_ghost_or_link (v : FlextailUtils.ButtonVariant) : bool :=
  match v with
  | FlextailUtils.ghost | FlextailUtils.link => true
  | _ => false
  end.

Section WithCn.
(** [cn] of [flextail-utils]: [twMerge] after the clsx package. *)
Variable cn : list ClassValue -> string.

(** [shapeClass] of [Button]. *)
Definition shapeClass (shape : FlextailUtils.ButtonShape)
  (variant : FlextailUtils.ButtonVariant)
  (context : ButtonTsx.ButtonGroupContextProps) : string :=
  let isGrouped := ButtonTsx.isGrouped context in
  let groupPosition := ButtonTsx.groupPosition context in
  let isFullyRounded :=
    is_position ButtonTsx.single groupPosition
    || is_ghost_or_link variant
    || negb isGrouped in
  if isGrouped && negb isFullyRounded then
    let roundedClass :=
      if is_position ButtonTsx.first groupPosition then
        match shape with
        | FlextailUtils.circle => "rounded-l-full"
        | FlextailUtils.squircle => "rounded-l-xl"
        | FlextailUtils.square => "rounded-l-lg"
        end
      else if is_position ButtonTsx.last groupPosition then
        match shape with
        | FlextailUtils.circle => "rounded-r-full"
        | FlextailUtils.squircle => "rounded-r-xl"
        | FlextailUtils.square => "rounded-r-lg"
        end
      else "rounded-none" in
    cn [ if negb (is_position ButtonTsx.last groupPosition)
         then VString "border-r border-white/40 dark:border-black/30"
         else VBoolean false;
         VString roundedClass ]
  else shapeStyles shape.

(** [finalClassName] of [Button]. *)
Definition finalClassName (p : FlextailUtils.ButtonProps)
  (shape : option FlextailUtils.ButtonShape)
  (size : option FlextailUtils.ButtonSize) (className : option string)
  (context : ButtonTsx.ButtonGroupContextProps) : string :=
  let variant :=
    match FlextailUtils.variant p with
    | Some v => v | None => FlextailUtils.primary end in
  let shape := match shape with Some s => s | None => FlextailUtils.squircle end in
  let size := match size with Some s => s | None => FlextailUtils.md end in
  cn [ VString baseStyles;
       VString (FlextailUtils.Button_variantClass cn p);
       VString (shapeClass shape variant context);
       VString (match className with Some c => c | None => "" end);
       VString (buttonSizeStyles size) ].

End WithCn.

(** ** The element and its attributes *)

(** The names the [Button] takes out of its properties; the others are
    [rest]. *)
Definition destructured : list string :=
  [ "variant"; "shape"; "loading"; "icon"; "iconPosition"; "color";
    "children"; "disabled"; "className"; "onClick"; "iconSize"; "alt";
    "size"; "href"; "type" ].

Definition type_name (t : FlextailUtils.ButtonType) : string :=
  match t with
  | FlextailUtils.type_button => "button"
  | FlextailUtils.type_submit => "submit"
  | FlextailUtils.type_reset => "reset"
  | FlextailUtils.type_default => "default"
  | FlextailUtils.type_add => "add"
  | FlextailUtils.type_error => "error"
  | FlextailUtils.type_accept => "accept"
  | FlextailUtils.type_danger => "danger"
  end.

(** [href ? "a" : "button"]. *)
Definition Element (href : option string) : string :=
  if truthy (match href with Some h => h | None => "" end) then "a" else "button".

(** [elementProps] as the [Button] leaves it: [props] are all the
    properties the caller passed, [className] is [finalClassName]. *)
Definition elementProps (props : JsObject.object)
  (ref onClick : JsObject.value) (className : string)
  (loading disabled : bool) (href : option string)
  (type : option FlextailUtils.ButtonType) : JsObject.object :=
  let rest := JsObject.rest_without destructured props in
  let type := match type with Some t => t | None => FlextailUtils.type_default end in
  let isDisabled := disabled || loading in
  let href := match href with Some h => h | None => "" end in
  let initial :=
    JsObject.spread
      [ ("ref", ref);
        ("className", JsObject.JString className);
        ("disabled", JsObject.JBoolean isDisabled);
        ("onClick", onClick);
        ("type", if truthy href then JsObject.JUndefined
                 else JsObject.JString (type_name type)) ]
      rest in
  if truthy href then
    JsObject.remove "disabled"
      (JsObject.spread initial
         [ ("href", JsObject.JString href);
           ("target", JsObject.JString "_blank");
           ("rel", JsObject.JString "noopener noreferrer") ])
  else
    JsObject.remove "rel"
      (JsObject.remove "target" (JsObject.remove "href" initial)).

End ButtonRender.

(* ================================================================== *)
(** * [Button.tsx]: [renderIcon] *)
(* ================================================================== *)

Module ButtonIcon.

(** The values an [icon] property takes: nothing, an image URL, an
    [OptimizedImageProps] object (by its [src]), a React element (by its
    component and its own [className]), a dual source (a key that is not
    in the object is [None]), or any other renderable node. *)
#[warnings="-register-all"] Inductive IconProp :=
| IconAbsent
| IconString (src : string)
| IconImage (src : string)
| IconElement (component : string) (className : option string)
| IconDual (light dark : option IconProp)
| IconNode.

(** JavaScript truthiness of an icon value. *)
Definition icon_truthy (i : IconProp) : bool :=
  match i with
  | IconAbsent => false
  | IconString s => truthy s
  | _ => true
  end.

(** [a || b]. *)
Definition icon_or (a b : IconProp) : IconProp :=
  if icon_truthy a then a else b.

(** Reading a key of a dual source: [undefined] when it is not there. *)
Definition key_value (o : option IconProp) : IconProp :=
  match o with
  | Some i => i
  | None => IconAbsent
  end.

(** [isIconDualSource]: an object with a [light] or a [dark] key. *)
Definition isIconDualSource (i : IconProp) : bool :=
  match i with
  | IconDual (Some _) _ => true
  | IconDual _ (Some _) => true
  | _ => false
  end.

(** What [renderIcon] returns. *)
Inductive rendered :=
| RenderNull
| RenderSpinner (className : string)
| RenderImg (src alt className : string)
| RenderClone (component : string) (className : string)
| RenderAsIs (icon : IconProp).

Record IconInputs := {
  loading : bool;
  icon : IconProp;
  iconSize : option FlextailUtils.ButtonSize;
  alt : option string;
  type : option FlextailUtils.ButtonType
}.

(** The implicit icon of a button type, [None] for the [default] branch
    that returns [null]. *)
Definition implicit_icon (t : FlextailUtils.ButtonType) (sizeClass : string)
  : option IconProp :=
  match t with
  | FlextailUtils.type_add => Some (IconElement "Plus" (Some sizeClass))
  | FlextailUtils.type_error => Some (IconElement "X" (Some sizeClass))
  | FlextailUtils.type_accept => Some (IconElement "Check" (Some sizeClass))
  | FlextailUtils.type_danger => Some (IconElement "Danger" (Some sizeClass))
  | _ => None
  end.

Section WithCn.
Variable cn : list ClassValue -> string.

Definition renderIcon (p : IconInputs) (darkMode : bool) : rendered :=
  let iconSize :=
    match iconSize p with Some s => s | None => FlextailUtils.md end in
  let type :=
    match type p with Some t => t | None => FlextailUtils.type_default end in
  let sizeClass := ButtonRender.iconSizeStyles iconSize in
  if loading p then RenderSpinner sizeClass
  else
    let chosen :=
      if icon_truthy (icon p) then Some (icon p)
      else implicit_icon type sizeClass in
    match chosen with
    | None => RenderNull
    | Some currentIcon =>
        let currentIcon :=
          match currentIcon with
          | IconDual light dark =>
              if isIconDualSource currentIcon then
                if darkMode then icon_or (key_value dark) (key_value light)
                else icon_or (key_value light) (key_value dark)
              else currentIcon
          | _ => currentIcon
          end in
        if negb (icon_truthy currentIcon) then RenderNull
        else
          let imageSizeClass := ButtonRender.iconImageSizeStyles iconSize in
          let altText := opt_or (alt p) "Button icon" in
          match currentIcon with
          | IconImage src => RenderImg src altText imageSizeClass
          | IconString src => RenderImg src altText imageSizeClass
          | IconElement component className =>
              RenderClone component
                (cn [ match className with
                      | Some c => VString c
                      | None => VUndefined
                      end;
                      VString sizeClass ])
          | other => RenderAsIs other
          end
    end.

End WithCn.

End ButtonIcon.

(* ================================================================== *)
(** * The context-based [Button]: classes from group, preset and state *)
(* ================================================================== *)

Module GroupedButtonRender.

(** [ROUNDED_VALUES] of [FlexTail-config.ts], looked up on its own keys. *)
Definition ROUNDED_VALUES (r : string) : option string :=
  if String.eqb r "none" then Some "rounded-none"
  else if String.eqb r "sm" then Some "rounded-sm"
  else if String.eqb r "md" then Some "rounded-md"
  else if String.eqb r "lg" then Some "rounded-lg"
  else if String.eqb r "full" then Some "rounded-full"
  else None.

(** [s.replace(pat, rep)] with a string pattern: the first occurrence. *)
Fixpoint replace_first (pat rep s : string) : string :=
  if String.prefix pat s then
    rep ++ String.substring (String.length pat)
                            (String.length s - String.length pat) s
  else
    match s with
    | EmptyString => EmptyString
    | String c rest => String c (replace_first pat rep rest)
    end.

Inductive PresetType := submit | cancel | delete | next | loading.

Inductive IconPosition := top | bottom | left | right.

(** The entries of [PRESETS] that the class computation reads. *)
Definition preset_color (p : PresetType) : string :=
  match p with
  | submit => "emerald"
  | cancel => "slate"
  | delete => "rose"
  | next => "blue"
  | loading => "indigo"
  end.

Definition preset_variant (p : PresetType) : string :=
  match p with
  | submit => "primary"
  | cancel => "ghost"
  | delete => "primary"
  | next => "secondary"
  | loading => "secondary"
  end.

Definition preset_iconPosition (p : PresetType) : option IconPosition :=
  match p with
  | next => Some right
  | _ => None
  end.

Record ButtonProps := {
  color : option string;
  variant : option string;
  disabled : bool;
  radius : option string;
  active : bool;
  activeColor : option string;
  href : option string;
  iconPosition : option IconPosition;
  preset : option PresetType;
  className : option string
}.

(** [a || b] where both may be [undefined]. *)
Definition or_undefined (a b : option string) : option string :=
  match a with
  | Some s => if truthy s then Some s else b
  | None => b
  end.

Definition baseColor (p : ButtonProps)
  (context : GroupedButton.ButtonGroupContextProps) : string :=
  let color := match color p with Some c => c | None => "indigo" end in
  opt_or (option_map preset_color (preset p))
         (opt_or (GroupedButton.groupColor context) color).

Definition baseVariant (p : ButtonProps)
  (context : GroupedButton.ButtonGroupContextProps) : string :=
  let variant := match variant p with Some v => v | None => "primary" end in
  opt_or (option_map preset_variant (preset p))
         (opt_or (GroupedButton.groupVariant context) variant).

Definition isActiveState (p : ButtonProps)
  (context : GroupedButton.ButtonGroupContextProps) : bool :=
  active p && GroupedButton.isGrouped context.

Definition finalColor (p : ButtonProps)
  (context : GroupedButton.ButtonGroupContextProps) : string :=
  let baseActiveColor :=
    or_undefined (GroupedButton.groupActiveColor context) (activeColor p) in
  if isActiveState p context then
    match baseActiveColor with
    | Some c => if truthy c then c else baseColor p context
    | None => baseColor p context
    end
  else baseColor p context.

Definition finalVariant (p : ButtonProps)
  (context : GroupedButton.ButtonGroupContextProps) : string :=
  let v := baseVariant p context in
  if isActiveState p context then
    if negb (String.eqb v "binary") && negb (String.eqb v "grayscale")
    then "primary" else v
  else v.

Definition baseRadiusClass (p : ButtonProps)
  (context : GroupedButton.ButtonGroupContextProps) : string :=
  let radius := match radius p with Some r => r | None => "md" end in
  let effectiveRadius :=
    if GroupedButton.isGrouped context
    then GroupedButton.groupRadius context else radius in
  opt_or (ROUNDED_VALUES effectiveRadius)
         ("rounded-[" ++ effectiveRadius ++ "]").

Definition isVertical (context : GroupedButton.ButtonGroupContextProps) : bool :=
  match GroupedButton.groupDirection context with
  | GroupedButton.vertical => true
  | GroupedButton.horizontal => false
  end.

Definition radiusClass (p : ButtonProps)
  (context : GroupedButton.ButtonGroupContextProps) : string :=
  if negb (GroupedButton.isGrouped context) then baseRadiusClass p context
  else
    let baseReset := "rounded-none" in
    let radiusSuffix := replace_first "rounded-" "" (baseRadiusClass p context) in
    match GroupedButton.groupPosition context with
    | GroupedButton.middle => baseReset
    | GroupedButton.first =>
        if isVertical context
        then baseReset ++ " rounded-t-" ++ radiusSuffix
        else baseReset ++ " rounded-l-" ++ radiusSuffix
    | GroupedButton.last =>
        if isVertical context
        then baseReset ++ " rounded-b-" ++ radiusSuffix
        else baseReset ++ " rounded-r-" ++ radiusSuffix
    | GroupedButton.none => baseReset
    end.

Definition groupSpacing
  (context : GroupedButton.ButtonGroupContextProps) : string :=
  if negb (GroupedButton.isGrouped context) then ""
  else
    match GroupedButton.groupPosition context with
    | GroupedButton.middle =>
        if isVertical context then "-mt-[1px]" else "-ml-[1px]"
    | GroupedButton.first =>
        if isVertical context then "mb-0 border-b-0" else "mr-0 border-r-0"
    | _ => ""
    end.

Definition baseStyles : string :=
  "inline-flex items-center justify-center font-medium transition-all duration-300 active:scale-[0.98] disabled:pointer-events-none disabled:opacity-50 focus-visible:ring-2 focus-visible:ring-offset-2 focus-visible:outline-none relative".

Definition responsiveSizeClasses : string :=
  "px-3 py-2 text-sm sm:px-4 sm:py-2.5 sm:text-base lg:px-6 lg:py-3.5 lg:text-lg".

Definition flexDirection (p : ButtonProps) : string :=
  let iconPosition :=
    match iconPosition p with Some i => i | None => left end in
  let finalIconPos :=
    match option_map preset_iconPosition (preset p) with
    | Some (Some i) => i
    | _ => iconPosition
    end in
  match finalIconPos with
  | top => "flex-col"
  | bottom => "flex-col-reverse"
  | right => "flex-row-reverse"
  | left => "flex-row"
  end.

(** The arguments of the [cn] call that builds [computedClassName]. *)
Definition class_arguments (p : ButtonProps)
  (context : GroupedButton.ButtonGroupContextProps) : list ClassValue :=
  let colorClasses :=
    FlexTailConfig.className
      (FlexTailConfig.getColorClass (finalColor p context)
                                    (finalVariant p context) false) in
  [ VString baseStyles;
    VString responsiveSizeClasses;
    VString (radiusClass p context);
    VString (if disabled p
             then "bg-neutral-200 text-neutral-400 border-neutral-200 dark:bg-neutral-800 dark:text-neutral-600 dark:border-neutral-800 shadow-none"
             else colorClasses);
    VString (groupSpacing context);
    VString (flexDirection p);
    VString "gap-1.5 sm:gap-2";
    VString (if isActiveState p context
             then "z-10 relative ring-2 ring-offset-1 ring-transparent"
             else if GroupedButton.isGrouped context then "z-0" else "");
    match className p with Some c => VString c | None => VUndefined end ].

(** [true] when the button renders as an anchor. *)
Definition renders_anchor (p : ButtonProps)
  (context : GroupedButton.ButtonGroupContextProps) : bool :=
  String.eqb (finalVariant p context) "link"
  && truthy (match href p with Some h => h | None => "" end)
  && negb (disabled p).

End GroupedButtonRender.

(* ------------------------------------------------------------------ *)
(** ** Basic facts on strings, [join] and [tokens] *)
(* ------------------------------------------------------------------ *)

Lemma append_empty_r (s : string) : s ++ "" = s.
Proof. induction s as [|c s IH]; simpl; [reflexivity | now rewrite IH]. Qed.

Lemma append_assoc' (a b c : string) : (a ++ b) ++ c = a ++ (b ++ c).
Proof. induction a as [|x a IH]; simpl; [reflexivity | now rewrite IH]. Qed.

Lemma truthy_app_r (a b : string) : truthy b = true -> truthy (a ++ b) = true.
Proof. destruct a; simpl; auto. Qed.

Lemma truthy_false (s : string) : truthy s = false -> s = "".
Proof. destruct s; simpl; [reflexivity | discriminate]. Qed.

Lemma or_else_empty (b : string) : or_else "" b = b.
Proof. reflexivity. Qed.

Lemma join_cons (t : string) (l : list string) :
  l <> [] -> join (t :: l) = t ++ " " ++ join l.
Proof. destruct l; [congruence | reflexivity]. Qed.

Lemma split_spaces_token (t : string) :
  no_space t = true ->
  forall cur rest, split_spaces cur (t ++ rest) = split_spaces (cur ++ t) rest.
Proof.
  induction t as [|c t IH]; simpl; intros Hns cur rest.
  - now rewrite append_empty_r.
  - apply andb_true_iff in Hns as [Hc Ht].
    apply negb_true_iff in Hc. rewrite Hc.
    rewrite (IH Ht). now rewrite append_assoc'.
Qed.

Lemma tokens_token_space (t rest : string) :
  is_token t = true -> tokens (t ++ String " " rest) = t :: tokens rest.
Proof.
  intros Ht. apply andb_true_iff in Ht as [Hne Hns].
  unfold tokens. rewrite (split_spaces_token t Hns). simpl.
  now rewrite Hne.
Qed.

Lemma tokens_single (t : string) : is_token t = true -> tokens t = [t].
Proof.
  intros Ht. apply andb_true_iff in Ht as [Hne Hns].
  unfold tokens. rewrite <- (append_empty_r t) at 1.
  rewrite (split_spaces_token t Hns). simpl. now rewrite Hne.
Qed.

(** Joining well-formed tokens and reading them back is the identity. *)
Lemma tokens_join (l : list string) :
  forallb is_token l = true -> tokens (join l) = l.
Proof.
  induction l as [|t l IH]; intros Hl.
  - reflexivity.
  - simpl in Hl. apply andb_true_iff in Hl as [Ht Hl].
    destruct l as [|u l].
    + now apply tokens_single.
    + rewrite join_cons by discriminate.
      simpl append. rewrite (tokens_token_space t _ Ht). now rewrite IH.
Qed.

Lemma no_space_app (a b : string) :
  no_space a = true -> no_space b = true -> no_space (a ++ b) = true.
Proof.
  induction a as [|c a IH]; simpl; intros Ha Hb; [assumption|].
  apply andb_true_iff in Ha as [Hc Ha]. now rewrite Hc, IH.
Qed.

Lemma split_spaces_tokens (s : string) :
  forall cur, no_space cur = true ->
              forallb is_token (split_spaces cur s) = true.
Proof.
  induction s as [|c s IH]; simpl; intros cur Hcur.
  - destruct (truthy cur) eqn:E; simpl; [|reflexivity].
    unfold is_token. now rewrite E, Hcur.
  - destruct (is_space c) eqn:Hc.
    + destruct (truthy cur) eqn:E; simpl.
      * unfold is_token at 1. rewrite E, Hcur. simpl. now apply IH.
      * now apply IH.
    + apply IH. apply no_space_app; [assumption|]. simpl. now rewrite Hc.
Qed.

(** Whatever the input, [tokens] yields well-formed tokens. *)
Lemma tokens_wf (s : string) : forallb is_token (tokens s) = true.
Proof. now apply split_spaces_tokens. Qed.

Lemma filter_truthy_tokens (l : list string) :
  forallb is_token l = true -> filter truthy l = l.
Proof.
  induction l as [|t l IH]; simpl; intros H; [reflexivity|].
  apply andb_true_iff in H as [Ht Hl].
  apply andb_true_iff in Ht as [Hne _]. now rewrite Hne, IH.
Qed.

(* ------------------------------------------------------------------ *)
(** ** Facts on [clsx] *)
(* ------------------------------------------------------------------ *)

(** A one-element array flattens to the flattening of its element. *)
Lemma clsx_value_singleton (v : ClassValue) :
  clsx_value (VArray [v]) = clsx_value v.
Proof.
  simpl. destruct (truthy (clsx_value v)) eqn:E; simpl.
  - reflexivity.
  - symmetry. now apply truthy_false.
Qed.

Lemma clsx_singleton (v : ClassValue) : clsx [v] = clsx_value v.
Proof. apply clsx_value_singleton. Qed.

Lemma cn_cn_inline (twMerge : string -> string) (inputs : list ClassValue) :
  cn twMerge inputs = cn_inline twMerge inputs.
Proof. unfold cn, cn_inline. now rewrite clsx_singleton. Qed.

Lemma clsx_app (pre post : list ClassValue) :
  clsx (pre ++ post) =
  join (filter truthy (map clsx_value pre) ++ filter truthy (map clsx_value post)).
Proof. unfold clsx. simpl. now rewrite map_app, filter_app. Qed.

(** Re-flattening the flattened pieces changes nothing (any arity). *)
Lemma clsx_reflatten (inputs : list ClassValue) :
  clsx (map (fun v => VString (clsx [v])) inputs) = clsx inputs.
Proof.
  unfold clsx at 1 3. simpl. f_equal.
  rewrite map_map. f_equal.
  apply map_ext. intros v. simpl. apply clsx_singleton.
Qed.

Lemma clsx_strings (l : list string) :
  forallb is_token l = true -> clsx (map VString l) = join l.
Proof.
  intros H. unfold clsx. simpl. rewrite map_map. simpl.
  rewrite map_id. now rewrite filter_truthy_tokens.
Qed.

(* ------------------------------------------------------------------ *)
(** ** Facts on the merger *)
(* ------------------------------------------------------------------ *)

Section MergerFacts.
Variable K : string -> option string.

Lemma has_key_sym (k k' : string) :
  Merger.has_key k (Some k') = Merger.has_key k' (Some k).
Proof. simpl. apply String.eqb_sym. Qed.

Lemma has_key_true (k : string) (o : option string) :
  Merger.has_key k o = true <-> o = Some k.
Proof.
  destruct o as [k'|]; simpl.
  - rewrite String.eqb_eq. split; [now intros -> | congruence].
  - split; discriminate.
Qed.

Lemma filter_all {A : Type} (f : A -> bool) (l : list A) :
  (forall x, In x l -> f x = true) -> filter f l = l.
Proof.
  induction l as [|x l IH]; simpl; intros H; [reflexivity|].
  rewrite (H x (or_introl eq_refl)). f_equal. apply IH. auto.
Qed.

Lemma filter_none {A : Type} (f : A -> bool) (l : list A) :
  (forall x, In x l -> f x = false) -> filter f l = [].
Proof.
  induction l as [|x l IH]; simpl; intros H; [reflexivity|].
  rewrite (H x (or_introl eq_refl)). apply IH. auto.
Qed.

Lemma filter_twice {A : Type} (f g : A -> bool) (l : list A) :
  filter f (filter g l) = filter (fun x => g x && f x) l.
Proof.
  induction l as [|x l IH]; simpl; [reflexivity|].
  destruct (g x); simpl; [destruct (f x)|]; now rewrite IH.
Qed.

(** The fold of [merge_step] keeps of [out] what no token of [l] claims,
    followed by the survivors of [l]. *)
Lemma fold_merge_step (l : list string) :
  forall out : list (option string * string),
    fold_left (Merger.merge_step K) l out =
    (filter (fun e => negb (Merger.claimed K l (fst e))) out
     ++ map (fun t => (K t, t)) (Merger.keep_last K l))%list.
Proof.
  induction l as [|t r IH]; intros out.
  - simpl. rewrite app_nil_r. symmetry. apply filter_all.
    intros [o s] _. now destruct o.
  - simpl fold_left. rewrite IH. unfold Merger.merge_step.
    simpl Merger.keep_last. unfold Merger.overridden.
    destruct (K t) as [k|] eqn:Ekt.
    + rewrite filter_app, filter_twice, <- app_assoc. f_equal.
      * apply filter_ext. intros [o s]. simpl.
        destruct o as [k'|]; simpl; [|reflexivity].
        rewrite Ekt. simpl. rewrite (String.eqb_sym k k').
        now rewrite negb_orb.
      * simpl. destruct (existsb _ r); simpl; [reflexivity|].
        now rewrite Ekt.
    + rewrite filter_app, <- app_assoc. f_equal.
      * apply filter_ext. intros [o s]. simpl.
        destruct o as [k'|]; simpl; [|reflexivity].
        now rewrite Ekt.
      * simpl. now rewrite Ekt.
Qed.

Lemma merge_tokens_keep_last (l : list string) :
  Merger.merge_tokens K l = Merger.keep_last K l.
Proof.
  unfold Merger.merge_tokens. rewrite fold_merge_step. simpl.
  rewrite map_map. simpl. apply map_id.
Qed.

Lemma keep_last_incl (l : list string) (t : string) :
  In t (Merger.keep_last K l) -> In t l.
Proof.
  induction l as [|x l IH]; simpl; [tauto|].
  destruct (Merger.overridden K x l); simpl; intuition.
Qed.

(** Of a conflict group only its last token survives. *)
Lemma keep_last_group (k b : string) (l3 : list string) :
  K b = Some k ->
  (forall t, In t l3 -> K t <> Some k) ->
  forall pre,
    filter (fun t => Merger.has_key k (K t)) (Merger.keep_last K (pre ++ b :: l3))
    = [b].
Proof.
  intros Hb Hl3.
  assert (Hno : forall l, (forall t, In t l -> K t <> Some k) ->
                          existsb (fun u => Merger.has_key k (K u)) l = false).
  { intros l Hl. apply not_true_is_false. intros E.
    apply existsb_exists in E as [u [Hu Hk]].
    apply has_key_true in Hk. exact (Hl u Hu Hk). }
  induction pre as [|x pre IH].
  - simpl. unfold Merger.overridden. rewrite Hb, (Hno l3 Hl3). simpl.
    rewrite Hb. simpl. rewrite String.eqb_refl. f_equal.
    apply filter_none. intros t Ht. apply keep_last_incl in Ht.
    apply not_true_is_false. intros E. apply has_key_true in E.
    exact (Hl3 t Ht E).
  - simpl. destruct (Merger.overridden K x (pre ++ b :: l3)) eqn:Eo.
    + exact IH.
    + simpl. destruct (Merger.has_key k (K x)) eqn:Ex; [|exact IH].
      exfalso. apply has_key_true in Ex.
      unfold Merger.overridden in Eo. rewrite Ex in Eo.
      assert (existsb (fun u => Merger.has_key k (K u)) (pre ++ b :: l3) = true)
        as E.
      { apply existsb_exists. exists b. split.
        - apply in_or_app. right. now left.
        - now apply has_key_true. }
      congruence.
Qed.

(** A token followed by one of its own key is dropped, wherever it
    stands. *)
Lemma keep_last_drop_earlier (k a b : string) (l2 l3 : list string) :
  K a = Some k ->
  K b = Some k ->
  forall l1,
    Merger.keep_last K (l1 ++ a :: l2 ++ b :: l3)
    = Merger.keep_last K (l1 ++ l2 ++ b :: l3).
Proof.
  intros Ha Hb.
  assert (Hb_in : forall k', Merger.has_key k' (K a) = true ->
                  existsb (fun u => Merger.has_key k' (K u)) (l2 ++ b :: l3) = true).
  { intros k' Hk'. apply existsb_exists. exists b. split.
    - apply in_or_app. right. now left.
    - rewrite Hb. now rewrite Ha in Hk'. }
  induction l1 as [|x l1 IH].
  - simpl. unfold Merger.overridden. rewrite Ha.
    rewrite (Hb_in k); [reflexivity|]. rewrite Ha. simpl. apply String.eqb_refl.
  - simpl. rewrite IH. unfold Merger.overridden.
    destruct (K x) as [kx|]; [|reflexivity].
    rewrite (existsb_app _ l1 (a :: l2 ++ b :: l3)).
    rewrite (existsb_app _ l1 (l2 ++ b :: l3)). simpl.
    destruct (Merger.has_key kx (K a)) eqn:Ea; [|reflexivity].
    now rewrite (Hb_in kx Ea).
Qed.

(** The merger model on a class string, read back as tokens. *)
Lemma tokens_twMerge (s : string) :
  tokens (Merger.twMerge K s) = Merger.keep_last K (tokens s).
Proof.
  unfold Merger.twMerge. rewrite merge_tokens_keep_last.
  apply tokens_join. apply forallb_forall. intros t Ht.
  apply keep_last_incl in Ht.
  exact (proj1 (forallb_forall _ _) (tokens_wf s) t Ht).
Qed.

Lemma tokens_cn_strings (l : list string) :
  forallb is_token l = true ->
  tokens (cn (Merger.twMerge K) (map VString l)) = Merger.keep_last K l.
Proof.
  intros Hl. unfold cn. rewrite clsx_singleton.
  change (clsx_value (VArray (map VString l))) with (clsx (map VString l)).
  rewrite (clsx_strings l Hl), tokens_twMerge. now rewrite tokens_join.
Qed.

Lemma cn_strings (l : list string) :
  forallb is_token l = true ->
  cn (Merger.twMerge K) (map VString l) = join (Merger.keep_last K l).
Proof.
  intros Hl. unfold cn. rewrite clsx_singleton.
  change (clsx_value (VArray (map VString l))) with (clsx (map VString l)).
  rewrite (clsx_strings l Hl). unfold Merger.twMerge.
  now rewrite merge_tokens_keep_last, tokens_join.
Qed.

End MergerFacts.

(* ================================================================== *)
(** * The class composition resolver: merge and flatten *)
(* ================================================================== *)

(** C1.  Let a token sequence hold [a] and, later, [b], two tokens with
    the same CategoryKey [k].  The earlier token contributes nothing to the
    result of [cn] (the merger after the flattener): the result is that of
    the sequence without it.  When [b] is the last token of key [k], the
    result, read as tokens, holds [b] as its only token of that key; so it
    contains the later token [b] and, [a] being another token, not [a]. *)
Theorem cn_same_key_keeps_later
  (K : string -> option string) (l1 l2 l3 : list string) (a b k : string) :
  forallb is_token (l1 ++ a :: l2 ++ b :: l3) = true ->
  K a = Some k ->
  K b = Some k ->
  cn (Merger.twMerge K) (map VString (l1 ++ a :: l2 ++ b :: l3))
  = cn (Merger.twMerge K) (map VString (l1 ++ l2 ++ b :: l3))
  /\ ((forall t, In t l3 -> K t <> Some k) ->
      let out :=
        tokens (cn (Merger.twMerge K) (map VString (l1 ++ a :: l2 ++ b :: l3))) in
      filter (fun t => Merger.has_key k (K t)) out = [b]
      /\ In b out
      /\ (a <> b -> ~ In a out)).
Proof.
  intros Hwf Ha Hb. split.
  - assert (Hwf' : forallb is_token (l1 ++ l2 ++ b :: l3) = true).
    { rewrite forallb_app in Hwf. simpl in Hwf.
      apply andb_true_iff in Hwf as [H1 H2].
      apply andb_true_iff in H2 as [_ H2].
      rewrite forallb_app. now rewrite H1, H2. }
    rewrite (cn_strings K _ Hwf), (cn_strings K _ Hwf').
    now rewrite (keep_last_drop_earlier K k a b l2 l3 Ha Hb l1).
  - intros Hl3 out.
    assert (Hout : out = Merger.keep_last K ((l1 ++ a :: l2) ++ b :: l3)).
    { subst out. rewrite (tokens_cn_strings K _ Hwf).
      now rewrite <- app_assoc. }
    pose proof (keep_last_group K k b l3 Hb Hl3 (l1 ++ a :: l2)) as Hg.
    rewrite <- Hout in Hg.
    assert (Hin : forall t, In t out -> K t = Some k -> t = b).
    { intros t Ht Hk.
      assert (In t (filter (fun t => Merger.has_key k (K t)) out)) as Hf.
      { apply filter_In. split; [assumption | now apply has_key_true]. }
      rewrite Hg in Hf. destruct Hf as [Hf|[]]. now symmetry. }
    split; [exact Hg|]. split.
    + assert (In b (filter (fun t => Merger.has_key k (K t)) out)) as Hf
          by (rewrite Hg; now left).
      now apply filter_In in Hf.
    + intros Hne Hina. apply Hne. now apply Hin.
Qed.

(** The instance of the specification: [merge(["p-2","p-4"])] contains
    ["p-4"] and not ["p-2"]. *)
Lemma cn_same_key_keeps_later_witness :
  let out := tokens (cn (Merger.twMerge Merger.stem_key)
                        [VString "p-2"; VString "p-4"]) in
  In "p-4" out /\ ~ In "p-2" out.
Proof.
  destruct (cn_same_key_keeps_later Merger.stem_key [] [] [] "p-2" "p-4" "p")
    as [_ Hlast].
  - reflexivity.
  - reflexivity.
  - reflexivity.
  - destruct Hlast as [_ [Hin Hout]].
    + intros t [].
    + split; [exact Hin|]. apply Hout. discriminate.
Defined.

(** C2.  The in-file [clsx] has no branch for numbers: a number at any
    place of an array contributes nothing, and [clsx(4)] is the empty
    string rather than ["4"]. *)
Theorem clsx_number_dropped :
  (forall (n : Z) (pre post : list ClassValue),
      clsx_value (VArray (pre ++ VNumber n :: post))
      = clsx_value (VArray (pre ++ post)))
  /\ clsx [VNumber 4] = ""
  /\ tokens (clsx [VString "order"; VNumber 4]) = ["order"].
Proof.
  split; [|split; reflexivity].
  intros n pre post. simpl. now rewrite !map_app, !filter_app.
Qed.

(** C3.  In every array of a [ClassValue] tree an entry that is [null],
    [undefined], [false] or the empty string is skipped; a keyed boolean
    map contributes exactly its keys with a true value, in the order of
    its entries; [clsx({"text-red-500": false, "text-blue-500": true})] is
    ["text-blue-500"]. *)
Theorem clsx_skips_falsy_and_false_keys
  (pre post : list ClassValue) (e : ClassValue) (entries : list (string * bool)) :
  In e [VNull; VUndefined; VBoolean false; VString ""] ->
  forallb is_token (map fst entries) = true ->
  clsx_value (VArray (pre ++ e :: post)) = clsx_value (VArray (pre ++ post))
  /\ clsx [VObject entries]
     = join (map fst (filter (fun kv : string * bool => snd kv) entries))
  /\ tokens (clsx [VObject entries])
     = map fst (filter (fun kv : string * bool => snd kv) entries)
  /\ (forall key, In key (tokens (clsx [VObject entries])) <-> In (key, true) entries)
  /\ clsx [VObject [("text-red-500", false); ("text-blue-500", true)]]
     = "text-blue-500".
Proof.
  intros He Hkeys.
  assert (Htok : tokens (clsx [VObject entries])
                 = map fst (filter (fun kv : string * bool => snd kv) entries)).
  { rewrite clsx_singleton. simpl. apply tokens_join.
    apply forallb_forall. intros t Ht.
    apply in_map_iff in Ht as [[key v] [<- Hin]].
    apply filter_In in Hin as [Hin _].
    apply (proj1 (forallb_forall _ _) Hkeys).
    apply in_map_iff. now exists (key, v). }
  split; [|split; [apply clsx_singleton | split; [exact Htok | split; [|reflexivity]]]].
  - assert (clsx_value e = "") as Hempty.
    { simpl in He. destruct He as [<-|[<-|[<-|[<-|[]]]]]; reflexivity. }
    simpl. rewrite !map_app, !filter_app. simpl. now rewrite Hempty.
  - intros key. rewrite Htok. split.
    + intros Hin. apply in_map_iff in Hin as [[key' v] [Hk Hin]].
      apply filter_In in Hin as [Hin Hv]. simpl in Hk, Hv. now subst.
    + intros Hin. apply in_map_iff. exists (key, true). split; [reflexivity|].
      apply filter_In. now split.
Qed.

Lemma clsx_skips_falsy_and_false_keys_witness :
  clsx_value (VArray ([VString "flex"] ++ VNull :: [VString "gap-2"]))
  = clsx_value (VArray ([VString "flex"] ++ [VString "gap-2"]))
  /\ tokens (clsx [VObject [("hidden", false); ("block", true); ("p-4", true)]])
     = ["block"; "p-4"].
Proof.
  destruct (clsx_skips_falsy_and_false_keys
              [VString "flex"] [VString "gap-2"] VNull
              [("hidden", false); ("block", true); ("p-4", true)])
    as [Hskip [_ [Htok _]]].
  - simpl. auto.
  - reflexivity.
  - split; [exact Hskip | exact Htok].
Defined.

(** C4.  Flattening is associative: [clsx(a, b)] equals
    [clsx(clsx(a), clsx(b))] for all [ClassValue] trees [a] and [b]. *)
Theorem clsx_associative (a b : ClassValue) :
  clsx [a; b] = clsx [VString (clsx [a]); VString (clsx [b])].
Proof. symmetry. exact (clsx_reflatten [a; b]). Qed.

(* ================================================================== *)
(** * Button classes *)
(* ================================================================== *)

Lemma colorMap_unknown (c : string) :
  ~ In c ["blue"; "gray"] -> NotFoundPage.colorMap c = None.
Proof.
  intros Hc. unfold NotFoundPage.colorMap.
  destruct (String.eqb c "blue") eqn:Eb.
  - apply String.eqb_eq in Eb. exfalso. apply Hc. simpl. auto.
  - destruct (String.eqb c "gray") eqn:Eg; [|reflexivity].
    apply String.eqb_eq in Eg. exfalso. apply Hc. simpl. auto.
Qed.

Lemma variantMap_unknown (c : string) (v : NotFoundPage.ButtonVariant) :
  NotFoundPage.colorMap c = None ->
  NotFoundPage.variantMap c v
  = NotFoundPage.variantMap NotFoundPage.default_color v.
Proof.
  intros Hc. destruct v; simpl; rewrite ?Hc; reflexivity.
Qed.

(** C5 as stated fails on [getColorClass]: the colour ["crimson"] is not
    in [TAILWIND_COLORS], and its classes are those of no palette colour,
    the default ["indigo"] included. *)
Lemma getColorClass_unrecognized_not_default :
  FlexTailConfig.includes FlexTailConfig.TAILWIND_COLORS "crimson" = false
  /\ FlexTailConfig.className (FlexTailConfig.getColorClass "crimson" "primary" false)
     <> FlexTailConfig.className
          (FlexTailConfig.getColorClass FlexTailConfig.Button_default_color
                                        "primary" false)
  /\ Forall (fun c =>
               FlexTailConfig.className
                 (FlexTailConfig.getColorClass "crimson" "primary" false)
               <> FlexTailConfig.className
                    (FlexTailConfig.getColorClass c "primary" false))
            FlexTailConfig.TAILWIND_COLORS.
Proof.
  split; [reflexivity|]. split; [discriminate|].
  repeat constructor; discriminate.
Qed.

(** C5, amended.  The object-argument [getButtonClasses] returns, for a
    colour that is not a key of its [colorMap], the classes of the default
    colour [blue], whatever the variant, size, shape and flags.
    [getColorClass] does not fall back: a colour outside [TAILWIND_COLORS]
    is bound to [--btn-color] and styled by the [var(--btn-color)] classes
    of the variant. *)
Theorem unrecognized_color_classes
  (twMerge : string -> string) (p : NotFoundPage.ButtonProps)
  (c color variant : string) (isDark : bool) :
  ~ In c ["blue"; "gray"] ->
  FlexTailConfig.includes FlexTailConfig.TAILWIND_COLORS color = false ->
  NotFoundPage.getButtonClasses twMerge (NotFoundPage.with_color p (Some c))
  = NotFoundPage.getButtonClasses twMerge
      (NotFoundPage.with_color p (Some NotFoundPage.default_color))
  /\ NotFoundPage.getButtonClasses twMerge (NotFoundPage.with_color p (Some c))
     = NotFoundPage.getButtonClasses twMerge (NotFoundPage.with_color p None)
  /\ FlexTailConfig.style (FlexTailConfig.getColorClass color variant isDark)
     = [("--btn-color", color)]
  /\ FlexTailConfig.className (FlexTailConfig.getColorClass color variant isDark)
     = (if String.eqb variant "outline" then
          "border-[var(--btn-color)] text-[var(--btn-color)]"
        else if String.eqb variant "ghost" then
          "text-[var(--btn-color)] hover:bg-[var(--btn-color)]/10"
        else if String.eqb variant "link" then
          "text-[var(--btn-color)] decoration-[var(--btn-color)]"
        else "bg-[var(--btn-color)] text-white").
Proof.
  intros Hc Hcolor.
  pose proof (variantMap_unknown c) as Hv.
  specialize (fun v => Hv v (colorMap_unknown c Hc)).
  assert (NotFoundPage.getButtonClasses twMerge (NotFoundPage.with_color p (Some c))
          = NotFoundPage.getButtonClasses twMerge
              (NotFoundPage.with_color p (Some NotFoundPage.default_color))) as H.
  { unfold NotFoundPage.getButtonClasses, NotFoundPage.with_color.
    cbn [NotFoundPage.color NotFoundPage.variant NotFoundPage.size
         NotFoundPage.shape NotFoundPage.loading NotFoundPage.disabled].
    now rewrite !Hv. }
  split; [exact H|]. split; [rewrite H; reflexivity|].
  unfold FlexTailConfig.getColorClass. rewrite Hcolor. simpl. split; reflexivity.
Qed.

Lemma unrecognized_color_classes_witness :
  NotFoundPage.getButtonClasses (fun s : string => s)
    {| NotFoundPage.variant := Some NotFoundPage.outline;
       NotFoundPage.size := None;
       NotFoundPage.color := Some "cyan";
       NotFoundPage.shape := None;
       NotFoundPage.loading := false;
       NotFoundPage.disabled := false |}
  = NotFoundPage.getButtonClasses (fun s : string => s)
      {| NotFoundPage.variant := Some NotFoundPage.outline;
         NotFoundPage.size := None;
         NotFoundPage.color := Some "blue";
         NotFoundPage.shape := None;
         NotFoundPage.loading := false;
         NotFoundPage.disabled := false |}
  /\ FlexTailConfig.className
       (FlexTailConfig.getColorClass "#ff0055" "ghost" false)
     = "text-[var(--btn-color)] hover:bg-[var(--btn-color)]/10".
Proof.
  destruct (unrecognized_color_classes
              (fun s : string => s)
              {| NotFoundPage.variant := Some NotFoundPage.outline;
                 NotFoundPage.size := None;
                 NotFoundPage.color := None;
                 NotFoundPage.shape := None;
                 NotFoundPage.loading := false;
                 NotFoundPage.disabled := false |}
              "cyan" "#ff0055" "ghost" false)
    as [H1 [_ [_ H4]]].
  - simpl. intros [H|[H|[]]]; discriminate.
  - reflexivity.
  - split; [exact H1 | exact H4].
Defined.

(** C10.  A [Button] whose [disabled] or [loading] is true gets from
    [getButtonClasses] the one fixed class string, whatever the variant,
    colour and type. *)
Theorem disabled_button_classes_fixed
  (cn : list ClassValue -> string) (p : FlextailUtils.ButtonProps) :
  FlextailUtils.disabled p || FlextailUtils.loading p = true ->
  FlextailUtils.Button_variantClass cn p = FlextailUtils.disabled_classes
  /\ (forall variant color type,
        FlextailUtils.getButtonClasses cn variant color type true
        = "bg-gray-200 text-gray-400 dark:bg-gray-700 dark:text-gray-500 cursor-not-allowed shadow-none").
Proof.
  intros Hd. split.
  - unfold FlextailUtils.Button_variantClass, FlextailUtils.getButtonClasses.
    now rewrite Hd.
  - reflexivity.
Qed.

Lemma disabled_button_classes_fixed_witness :
  FlextailUtils.Button_variantClass clsx
    {| FlextailUtils.variant := Some FlextailUtils.ghost;
       FlextailUtils.color := Some FlextailUtils.red;
       FlextailUtils.type := Some FlextailUtils.type_submit;
       FlextailUtils.loading := true;
       FlextailUtils.disabled := false |}
  = FlextailUtils.disabled_classes.
Proof.
  apply (disabled_button_classes_fixed clsx).
  reflexivity.
Defined.

(* ================================================================== *)
(** * Button groups *)
(* ================================================================== *)


Lemma mapi_from_app {A B : Type} (f : nat -> A -> B) (l1 l2 : list A) :
  forall s, mapi_from f s (l1 ++ l2)
            = (mapi_from f s l1 ++ mapi_from f (s + length l1) l2)%list.
Proof.
  induction l1 as [|x l1 IH]; intros s; simpl.
  - now rewrite Nat.add_0_r.
  - rewrite IH. now rewrite Nat.add_succ_r.
Qed.

Lemma mapi_from_map {A B C : Type} (g : B -> C) (f : nat -> A -> B) (l : list A) :
  forall s, map g (mapi_from f s l) = mapi_from (fun i x => g (f i x)) s l.
Proof.
  induction l as [|x l IH]; intros s; simpl; [reflexivity | now rewrite IH].
Qed.






(* ================================================================== *)
(** * The alert dialog *)
(* ================================================================== *)

Section Selectors.
Import AlertDialog.
Variable sel : element -> bool.

Lemma matches_at_nil (i : nat) : ~ matches_at sel [] i.
Proof. intros [e [He _]]. now destruct i. Qed.

Lemma matches_at_head (e : element) (r : list element) :
  matches_at sel (e :: r) 0 <-> sel e = true.
Proof.
  split.
  - intros [e' [He Hs]]. simpl in He. now injection He as ->.
  - intros Hs. now exists e.
Qed.

Lemma matches_at_tail (e : element) (r : list element) (i : nat) :
  matches_at sel (e :: r) (S i) <-> matches_at sel r i.
Proof. reflexivity. Qed.

Lemma no_match_tail (e : element) (r : list element) :
  (forall j, 0 < j -> ~ matches_at sel (e :: r) j) -> no_match sel r.
Proof. intros H i Hi. apply (H (S i)); [lia | assumption]. Qed.

Lemma select_from_none (els : list element) :
  no_match sel els -> forall s, select_from sel s els = [].
Proof.
  induction els as [|e r IH]; intros Hno s; simpl; [reflexivity|].
  destruct (sel e) eqn:Es.
  - exfalso. apply (Hno 0). now apply matches_at_head.
  - apply IH. intros i Hi. apply (Hno (S i)). assumption.
Qed.

Lemma select_from_In (els : list element) :
  forall s i, matches_at sel els i -> In (s + i) (select_from sel s els).
Proof.
  induction els as [|e r IH]; intros s i Hi.
  - now apply matches_at_nil in Hi.
  - destruct i as [|i]; simpl.
    + apply matches_at_head in Hi. rewrite Hi, Nat.add_0_r. now left.
    + apply matches_at_tail in Hi. rewrite Nat.add_succ_r.
      specialize (IH (S s) i Hi). destruct (sel e); [now right | assumption].
Qed.

(** The first match in document order heads the selection. *)
Lemma select_from_first (els : list element) :
  forall s i, first_match sel els i ->
              exists rest, select_from sel s els = (s + i) :: rest.
Proof.
  induction els as [|e r IH]; intros s i [Hi Hbefore].
  - now apply matches_at_nil in Hi.
  - destruct i as [|i]; simpl.
    + apply matches_at_head in Hi. rewrite Hi, Nat.add_0_r. eauto.
    + destruct (sel e) eqn:Es.
      * exfalso. apply (Hbefore 0); [lia|]. now apply matches_at_head.
      * rewrite Nat.add_succ_r. apply (IH (S s) i). split.
        -- now apply matches_at_tail in Hi.
        -- intros j Hj Hm. apply (Hbefore (S j)); [lia | assumption].
Qed.

(** The last match in document order ends it. *)
Lemma select_from_last (els : list element) :
  forall s i d, last_match sel els i -> List.last (select_from sel s els) d = s + i.
Proof.
  induction els as [|e r IH]; intros s i d [Hi Hafter].
  - now apply matches_at_nil in Hi.
  - destruct i as [|i]; simpl.
    + apply matches_at_head in Hi. rewrite Hi.
      rewrite (select_from_none r (no_match_tail e r Hafter)). simpl. lia.
    + assert (Hr : last_match sel r i).
      { split; [now apply matches_at_tail in Hi|].
        intros j Hj Hm. apply (Hafter (S j)); [lia | assumption]. }
      pose proof (select_from_In r (S s) i (proj1 Hr)) as Hin.
      specialize (IH (S s) i d Hr). rewrite Nat.add_succ_r.
      destruct (sel e); [|exact IH].
      destruct (select_from sel (S s) r) as [|x l]; [destruct Hin|].
      exact IH.
Qed.

Lemma querySelector_first (els : list element) (i : nat) :
  first_match sel els i -> querySelector sel els = Some i.
Proof.
  intros H. unfold querySelector, querySelectorAll.
  destruct (select_from_first els 0 i H) as [rest ->]. reflexivity.
Qed.

Lemma querySelector_none (els : list element) :
  no_match sel els -> querySelector sel els = None.
Proof.
  intros H. unfold querySelector, querySelectorAll.
  now rewrite select_from_none.
Qed.

(** Where some descendant matches, one of them is the first. *)
Lemma first_match_exists (els : list element) :
  forall i, matches_at sel els i -> exists d, first_match sel els d.
Proof.
  induction els as [|e r IH]; intros i Hi.
  - now apply matches_at_nil in Hi.
  - destruct (sel e) eqn:Es.
    + exists 0. split; [now apply matches_at_head | intros j Hj; lia].
    + destruct i as [|i].
      * apply matches_at_head in Hi. congruence.
      * apply matches_at_tail in Hi. destruct (IH i Hi) as [d [Hd Hbefore]].
        exists (S d). split; [now apply matches_at_tail|].
        intros [|j] Hj Hm.
        -- apply matches_at_head in Hm. congruence.
        -- apply (Hbefore j); [lia | now apply matches_at_tail in Hm].
Qed.

End Selectors.

Section FocusTrap.
Import AlertDialog.

(** ** What [focus()] changes *)


Lemma focus_refused (n : node) (st : state) :
  accepts_focus st n = false -> focus n st = st.
Proof. intros H. unfold focus. now rewrite H. Qed.

Lemma focus_keeps (n : node) (st : state) :
  triggerElementRef (focus n st) = triggerElementRef st
  /\ listening (focus n st) = listening st
  /\ dialogRef (focus n st) = dialogRef st.
Proof. unfold focus. destruct (accepts_focus st n); repeat split. Qed.

Lemma focus_activeElement (n : node) (st : state) :
  activeElement (focus n st)
  = if accepts_focus st n then Some n else activeElement st.
Proof. unfold focus. now destruct (accepts_focus st n). Qed.

(** Whether a node accepts the focus depends on the mounted subtree only. *)
Lemma accepts_focus_dialogRef (st st' : state) (n : node) :
  dialogRef st' = dialogRef st -> accepts_focus st' n = accepts_focus st n.
Proof. intros H. unfold accepts_focus. now rewrite H. Qed.

(** ** Opening *)

(** The node the animation-frame callback calls [focus()] on: the first
    descendant marked [data-default="true"] if there is one, otherwise the
    first match of the focusable selector, otherwise the container. *)
Lemma initial_focus_target (els : list element) :
  (forall d, first_match matches_default els d ->
             initial_focus els = Descendant d)
  /\ (no_match matches_default els ->
      forall f, first_match matches_focusable els f ->
                initial_focus els = Descendant f)
  /\ (no_match matches_default els ->
      no_match matches_focusable els ->
      initial_focus els = Container).
Proof.
  unfold initial_focus. split; [|split].
  - intros d Hd. now rewrite (querySelector_first _ els d Hd).
  - intros Hno f Hf.
    rewrite (querySelector_none _ els Hno).
    now rewrite (querySelector_first _ els f Hf).
  - intros Hno Hnof.
    now rewrite (querySelector_none _ els Hno), (querySelector_none _ els Hnof).
Qed.

(** Opening captures the element that had the focus and attaches the
    listener; the focus moves to the callback's target when that node
    accepts it and stays where it was when it does not. *)
Lemma open_dialog_focus (st : state) (els : list element) :
  dialogRef st = Some els ->
  triggerElementRef (open_dialog st) = activeElement st
  /\ listening (open_dialog st) = true
  /\ dialogRef (open_dialog st) = Some els
  /\ activeElement (open_dialog st)
     = if accepts_focus st (initial_focus els)
       then Some (initial_focus els)
       else activeElement st.
Proof.
  intros Href. unfold open_dialog, animation_frame.
  assert (Hopen : dialogRef (effect_open st) = Some els) by exact Href.
  rewrite Hopen.
  destruct (focus_keeps (initial_focus els) (effect_open st)) as [Ht [Hl Hd]].
  rewrite Ht, Hl, Hd, focus_activeElement.
  rewrite (accepts_focus_dialogRef st (effect_open st)) by reflexivity.
  repeat split. exact Href.
Qed.

(** C7.  A dialog opened with the actions Cancel and Delete, the focus
    being on an element of the page: the button of Delete, the last
    action, is the first element marked [data-default="true"] and is the
    node the animation-frame callback calls [focus()] on.  The focus moves
    to it when the action is neither disabled nor loading.  When the action
    is disabled or loading its button is rendered disabled, the call does
    nothing, and the focus stays on the element of the page that had it,
    outside the dialog. *)
Theorem open_dialog_disabled_default_not_focused (isLoading isDisabled : bool) :
  let els := dialog_descendants [] []
               [ {| label := "Cancel"; variant := None; color := None;
                    loading := false; disabled := false; isDefault := false;
                    isDestructive := false |};
                 {| label := "Delete"; variant := None; color := None;
                    loading := isLoading; disabled := isDisabled;
                    isDefault := false; isDestructive := true |} ] in
  let st := {| activeElement := Some (Outside 3);
               triggerElementRef := None;
               listening := false;
               dialogRef := Some els |} in
  querySelector matches_default els = Some 11
  /\ initial_focus els = Descendant 11
  /\ nth_error els 11
     = Some (button_element (Some "true") isLoading isDisabled)
  /\ triggerElementRef (open_dialog st) = Some (Outside 3)
  /\ activeElement (open_dialog st)
     = if isDisabled || isLoading
       then Some (Outside 3)
       else Some (Descendant 11).
Proof.
  destruct isLoading, isDisabled; repeat split.
Qed.

(** ** The Tab key *)

(** With the listener attached and the container mounted, Tab on the last
    match of the selector calls [focus()] on the first match, and Shift+Tab
    on the first match calls it on the last; both cancel the browser's own
    move.  The focus arrives when the node accepts it. *)
Lemma tab_wraps_accepting (st : state) (els : list element) (f l : nat) :
  listening st = true ->
  dialogRef st = Some els ->
  first_match matches_tabbable els f ->
  last_match matches_tabbable els l ->
  (activeElement st = Some (Descendant l) ->
   let r := keydown {| key := "Tab"; shiftKey := false |} st in
   after r = focus (Descendant f) st
   /\ defaultPrevented r = true /\ closeCalls r = 0)
  /\ (activeElement st = Some (Descendant f) ->
      let r := keydown {| key := "Tab"; shiftKey := true |} st in
      after r = focus (Descendant l) st
      /\ defaultPrevented r = true /\ closeCalls r = 0).
Proof.
  intros Hlisten Href Hf Hl.
  destruct (select_from_first matches_tabbable els 0 f Hf) as [rest Hsel].
  simpl in Hsel.
  assert (Hlast : List.last (querySelectorAll matches_tabbable els) f = l).
  { unfold querySelectorAll.
    now rewrite (select_from_last matches_tabbable els 0 l f Hl). }
  unfold keydown, handleKeyDown. rewrite Hlisten, Href.
  cbn [String.eqb Ascii.eqb Bool.eqb key shiftKey].
  unfold querySelectorAll in *. rewrite Hsel in *. rewrite Hlast.
  unfold is_active. split; intros Hactive; rewrite Hactive; cbn [node_eqb];
    rewrite Nat.eqb_refl; cbn [after defaultPrevented closeCalls]; auto.
Qed.

(** C8.  The open dialog with the actions Cancel and Delete.  The
    selector of the handler matches the close button, the button of Cancel
    and the button of Delete, disabled or not.  Shift+Tab on the close
    button, the first match, cancels the browser's move and calls
    [focus()] on the button of Delete: the focus arrives there when the
    action is neither disabled nor loading, and stays on the close button
    when it is.  Tab on the button of Cancel is not handled, also when the
    button of Delete after it is disabled and Cancel is the last
    descendant that can hold the focus. *)
Theorem shift_tab_disabled_last_not_focused (isLoading isDisabled : bool) :
  let els := dialog_descendants [] []
               [ {| label := "Cancel"; variant := None; color := None;
                    loading := false; disabled := false; isDefault := false;
                    isDestructive := false |};
                 {| label := "Delete"; variant := None; color := None;
                    loading := isLoading; disabled := isDisabled;
                    isDefault := false; isDestructive := true |} ] in
  let on := fun i => {| activeElement := Some (Descendant i);
                        triggerElementRef := Some (Outside 3);
                        listening := true;
                        dialogRef := Some els |} in
  let back := keydown {| key := "Tab"; shiftKey := true |} (on 0) in
  querySelectorAll matches_tabbable els = [0; 8; 11]
  /\ nth_error els 11
     = Some (button_element (Some "true") isLoading isDisabled)
  /\ defaultPrevented back = true
  /\ activeElement (after back)
     = (if isDisabled || isLoading
        then Some (Descendant 0)
        else Some (Descendant 11))
  /\ keydown {| key := "Tab"; shiftKey := false |} (on 8) = unhandled (on 8).
Proof.
  destruct isLoading, isDisabled; repeat split.
Qed.

Lemma action_data_default_last (len : nat) (action : AlertDialogAction) :
  action_data_default len (len - 1) action = Some "true".
Proof.
  unfold action_data_default, isDefaultButton.
  now rewrite Nat.eqb_refl, orb_true_r.
Qed.

Lemma last_action_rendered (title description : list element)
  (rest : list AlertDialogAction) (a : AlertDialogAction) :
  In (action_button (length (rest ++ [a])) (length (rest ++ [a]) - 1) a)
     (dialog_descendants title description (rest ++ [a])).
Proof.
  unfold dialog_descendants.
  apply in_or_app. right. right.
  apply in_or_app. right. right.
  apply in_or_app. right. right.
  unfold mapi. rewrite mapi_from_app, concat_app. simpl.
  apply in_or_app. right. rewrite app_nil_r.
  replace (length (rest ++ [a]) - 1) with (length rest)
    by (rewrite length_app; simpl; lia).
  unfold render_action, Button, action_button. now left.
Qed.

(** C9.  For a non-empty [actions] list the button rendered for the last
    action carries [data-default="true"], whatever the [isDefault] flags;
    the opened dialog therefore has a descendant marked default. *)
Theorem last_action_is_default
  (title description : list element) (actions : list AlertDialogAction)
  (d : AlertDialogAction) :
  actions <> [] ->
  let n := length actions in
  let b := action_button n (n - 1) (List.last actions d) in
  data_default b = Some "true"
  /\ In b (dialog_descendants title description actions)
  /\ exists i e,
       querySelector matches_default (dialog_descendants title description actions)
       = Some i
       /\ nth_error (dialog_descendants title description actions) i = Some e
       /\ matches_default e = true.
Proof.
  intros Hne n b.
  destruct (exists_last Hne) as [rest [a Hactions]].
  assert (Hb : data_default b = Some "true").
  { subst b. simpl. apply action_data_default_last. }
  assert (Hin : In b (dialog_descendants title description actions)).
  { subst b n. rewrite Hactions, last_last. apply last_action_rendered. }
  split; [exact Hb|]. split; [exact Hin|].
  apply In_nth_error in Hin as [i Hi].
  assert (matches_at matches_default
            (dialog_descendants title description actions) i) as Hm.
  { exists b. split; [exact Hi|]. unfold matches_default. now rewrite Hb. }
  destruct (first_match_exists matches_default _ i Hm) as [k Hk].
  destruct (proj1 Hk) as [e [He Hs]].
  exists k, e. split; [|split; assumption].
  now apply querySelector_first.
Qed.

Lemma last_action_is_default_witness :
  let cancel := {| label := "Cancel"; variant := None; color := None;
                   loading := false; disabled := false; isDefault := false;
                   isDestructive := false |} in
  let delete := {| label := "Delete"; variant := None; color := None;
                   loading := false; disabled := false; isDefault := false;
                   isDestructive := true |} in
  data_default (action_button 2 1 (List.last [cancel; delete] cancel))
  = Some "true".
Proof.
  intros cancel delete.
  refine (proj1 (last_action_is_default [] [] [cancel; delete] cancel _)).
  discriminate.
Defined.

(** Escape reaches the close callback once per press and leaves the focus
    alone. *)
Lemma escape_calls_onClose_once (st : state) (shift : bool) :
  listening st = true ->
  keydown {| key := "Escape"; shiftKey := shift |} st
  = {| after := st; defaultPrevented := false; closeCalls := 1 |}.
Proof. intros Hl. unfold keydown. now rewrite Hl. Qed.

(** Closing after opening gives the focus back to the captured element,
    when it accepts the focus, and detaches the listener. *)
Lemma cleanup_restores_focus (st : state) (els : list element) (n : node) :
  activeElement st = Some n ->
  dialogRef st = Some els ->
  accepts_focus st n = true ->
  activeElement (effect_cleanup (open_dialog st)) = Some n
  /\ listening (effect_cleanup (open_dialog st)) = false.
Proof.
  intros Ha Href Hn.
  destruct (open_dialog_focus st els Href) as [Ht [_ [Hd _]]].
  unfold effect_cleanup. rewrite Ht, Ha.
  destruct (focus_keeps n
              {| activeElement := activeElement (open_dialog st);
                 triggerElementRef := Some n;
                 listening := false;
                 dialogRef := dialogRef (open_dialog st) |}) as [_ [Hl _]].
  rewrite Hl, focus_activeElement.
  rewrite (accepts_focus_dialogRef st) by (simpl; congruence).
  rewrite Hn. split; reflexivity.
Qed.

End FocusTrap.

(* ================================================================== *)
(** * More on the flattener *)
(* ================================================================== *)

(** Induction on a [ClassValue] with the hypothesis for every item of an
    array. *)
Lemma ClassValue_nested_ind (P : ClassValue -> Prop) :
  (forall s, P (VString s)) ->
  (forall n, P (VNumber n)) ->
  (forall items, Forall P items -> P (VArray items)) ->
  (forall entries, P (VObject entries)) ->
  P VNull -> P VUndefined ->
  (forall b, P (VBoolean b)) ->
  forall v, P v.
Proof.
  intros Hs Hn Ha Ho Hnull Hundef Hb.
  fix IH 1. intros [s|n|items|entries| | |b].
  - apply Hs.
  - apply Hn.
  - apply Ha. induction items as [|x items IHitems]; constructor.
    + apply IH.
    + exact IHitems.
  - apply Ho.
  - exact Hnull.
  - exact Hundef.
  - apply Hb.
Qed.

Lemma split_spaces_app_space (a b : string) :
  forall cur,
    split_spaces cur (a ++ String " " b) = (split_spaces cur a ++ tokens b)%list.
Proof.
  induction a as [|c a IH]; intros cur; simpl.
  - now destruct (truthy cur).
  - destruct (is_space c).
    + destruct (truthy cur); simpl; now rewrite IH.
    + apply IH.
Qed.

Lemma tokens_app_space (a b : string) :
  tokens (a ++ String " " b) = (tokens a ++ tokens b)%list.
Proof. apply split_spaces_app_space. Qed.

(** Reading a joined list back gives the tokens of its members in order. *)
Lemma tokens_join_flat (l : list string) :
  tokens (join l) = flat_map tokens l.
Proof.
  induction l as [|x l IH]; [reflexivity|].
  destruct l as [|y l].
  - simpl. now rewrite app_nil_r.
  - rewrite join_cons by discriminate. simpl append.
    rewrite tokens_app_space, IH. reflexivity.
Qed.

Lemma flat_map_tokens_filter (l : list string) :
  flat_map tokens (filter truthy l) = flat_map tokens l.
Proof.
  induction l as [|x l IH]; [reflexivity|]. simpl.
  destruct x as [|c x]; simpl; now rewrite IH.
Qed.

Lemma flat_map_map {A B C : Type} (f : A -> B) (g : B -> list C) (l : list A) :
  flat_map g (map f l) = flat_map (fun x => g (f x)) l.
Proof. induction l as [|x l IH]; simpl; [reflexivity | now rewrite IH]. Qed.

Lemma flat_map_Forall_ext {A B : Type} (f g : A -> list B) (l : list A) :
  Forall (fun x => f x = g x) l -> flat_map f l = flat_map g l.
Proof.
  induction 1 as [|x l Hx _ IH]; simpl; [reflexivity | now rewrite Hx, IH].
Qed.

Lemma tokens_clsx_value (v : ClassValue) :
  tokens (clsx_value v) = leaf_tokens v.
Proof.
  induction v as [s|n|items IH|entries| | |b] using ClassValue_nested_ind;
    try reflexivity.
  - simpl. rewrite tokens_join_flat, flat_map_tokens_filter, flat_map_map.
    now apply flat_map_Forall_ext.
  - simpl. rewrite tokens_join_flat.
    induction entries as [|[key value] entries IHe]; [reflexivity|].
    simpl. destruct value; simpl; now rewrite IHe.
Qed.

(** X1.  Read as tokens, the result of [clsx] is the sequence of the
    tokens its arguments hold, depth-first and left to right: no token is
    added, lost, merged or reordered, whatever the nesting. *)
Theorem clsx_tokens_depth_first (inputs : list ClassValue) (v : ClassValue) :
  tokens (clsx inputs) = flat_map leaf_tokens inputs
  /\ tokens (clsx_value v) = leaf_tokens v
  /\ forallb is_token (tokens (clsx inputs)) = true.
Proof.
  split; [exact (tokens_clsx_value (VArray inputs))|].
  split; [apply tokens_clsx_value | apply tokens_wf].
Qed.

Lemma join_app (a b : list string) :
  a <> [] -> b <> [] -> join (a ++ b) = join a ++ " " ++ join b.
Proof.
  induction a as [|x a IH]; intros Ha Hb; [congruence|].
  destruct a as [|y a].
  - simpl app. now rewrite join_cons.
  - change ((x :: y :: a) ++ b)%list with (x :: ((y :: a) ++ b))%list.
    rewrite join_cons by discriminate.
    rewrite IH by (discriminate || assumption).
    rewrite (join_cons x (y :: a)) by discriminate.
    now rewrite !append_assoc'.
Qed.

(** Splicing a non-empty list in place of its own join changes nothing. *)
Lemma join_splice (a b c : list string) :
  b <> [] -> join (a ++ join b :: c) = join (a ++ b ++ c).
Proof.
  intros Hb. induction a as [|x a IH].
  - simpl app. destruct c as [|z c].
    + now rewrite app_nil_r.
    + rewrite join_cons by discriminate.
      now rewrite join_app by (assumption || discriminate).
  - simpl app. rewrite !join_cons.
    + now rewrite IH.
    + destruct a; [destruct b; [congruence | discriminate] | discriminate].
    + destruct a; discriminate.
Qed.

Lemma truthy_join (l : list string) :
  l <> [] -> forallb truthy l = true -> truthy (join l) = true.
Proof.
  destruct l as [|x l]; [congruence|]. intros _ H. simpl in H.
  apply andb_true_iff in H as [Hx _].
  destruct l; [exact Hx|]. rewrite join_cons by discriminate.
  destruct x; [discriminate | reflexivity].
Qed.

Lemma forallb_truthy_filter (l : list string) :
  forallb truthy (filter truthy l) = true.
Proof.
  induction l as [|x l IH]; [reflexivity|]. simpl.
  destruct (truthy x) eqn:E; simpl; [now rewrite E|exact IH].
Qed.

Lemma tokens_truthy (l : list string) :
  forallb is_token l = true -> forallb truthy l = true.
Proof.
  induction l as [|x l IH]; [reflexivity|]. simpl. intros H.
  apply andb_true_iff in H as [Hx Hl]. apply andb_true_iff in Hx as [Hx _].
  now rewrite Hx, IH.
Qed.

(** Joining the joins of token lists is joining their concatenation. *)
Lemma join_concat_tokens (ll : list (list string)) :
  Forall (fun l => forallb is_token l = true) ll ->
  join (filter truthy (map join ll)) = join (concat ll)
  /\ (filter truthy (map join ll) = [] <-> concat ll = []).
Proof.
  induction 1 as [|x ll Hx _ [IH IHnil]]; [now split|].
  simpl map. simpl concat. destruct x as [|t x].
  - simpl. now split.
  - assert (Ht : truthy (join (t :: x)) = true)
      by (apply truthy_join; [discriminate | now apply tokens_truthy]).
    simpl filter. rewrite Ht. split; [|split; discriminate].
    destruct (filter truthy (map join ll)) as [|r rs] eqn:Er.
    + rewrite (proj1 IHnil eq_refl). now rewrite app_nil_r.
    + rewrite join_cons by discriminate. rewrite IH.
      assert (concat ll <> []) as Hne
          by (intros E; apply IHnil in E; discriminate).
      now rewrite join_app by (discriminate || assumption).
Qed.

Lemma normalized_eq (s : string) :
  normalized s = true -> s = join (tokens s).
Proof. apply String.eqb_eq. Qed.

Lemma map_Forall_ext {A B : Type} (f g : A -> B) (l : list A) :
  Forall (fun x => f x = g x) l -> map f l = map g l.
Proof.
  induction 1 as [|x l Hx _ IH]; simpl; [reflexivity | now rewrite Hx, IH].
Qed.

Lemma leaf_tokens_wf (v : ClassValue) :
  forallb is_token (leaf_tokens v) = true.
Proof. rewrite <- tokens_clsx_value. apply tokens_wf. Qed.

Lemma clsx_value_normal_form (v : ClassValue) :
  normalized_leaves v = true -> clsx_value v = join (leaf_tokens v).
Proof.
  induction v as [s|n|items IH|entries| | |b] using ClassValue_nested_ind;
    intros Hn; try reflexivity.
  - now apply normalized_eq.
  - simpl in *.
    assert (Hmap : map clsx_value items = map join (map leaf_tokens items)).
    { rewrite map_map. apply map_Forall_ext.
      rewrite Forall_forall in *. intros x Hx. apply IH; [exact Hx|].
      exact (proj1 (forallb_forall _ _) Hn x Hx). }
    rewrite Hmap, flat_map_concat_map.
    apply join_concat_tokens. apply Forall_forall. intros l Hl.
    apply in_map_iff in Hl as [x [<- _]]. apply leaf_tokens_wf.
  - simpl in *.
    assert (Hkeys : map fst (filter (fun e : string * bool => snd e) entries)
                    = filter truthy
                        (map join
                           (map (fun e : string * bool =>
                                   if snd e then tokens (fst e) else [])
                                entries))).
    { induction entries as [|[key value] entries IHe]; [reflexivity|].
      simpl in Hn. apply andb_true_iff in Hn as [Hk Hn].
      simpl. destruct value; simpl in *.
      - apply andb_true_iff in Hk as [Hk1 Hk2].
        rewrite <- (normalized_eq key Hk2), Hk1. now rewrite IHe.
      - now apply IHe. }
    rewrite Hkeys, flat_map_concat_map.
    apply join_concat_tokens. apply Forall_forall. intros l Hl.
    apply in_map_iff in Hl as [[key value] [<- _]]. simpl.
    destruct value; [apply tokens_wf | reflexivity].
Qed.

(** X2.  When every string argument is in normal form (tokens separated
    by single spaces) and every key with a true value is a non-empty
    string in normal form, the result of [clsx] is the space-join of the
    tokens its arguments hold, and so is itself in normal form: no
    leading, trailing or doubled space. *)
Theorem clsx_normal_form (inputs : list ClassValue) :
  forallb normalized_leaves inputs = true ->
  clsx inputs = join (flat_map leaf_tokens inputs)
  /\ normalized (clsx inputs) = true.
Proof.
  intros Hn.
  pose proof (clsx_value_normal_form (VArray inputs) Hn) as H.
  change (clsx_value (VArray inputs)) with (clsx inputs) in H.
  split; [exact H|].
  apply String.eqb_eq. rewrite H at 1. f_equal. symmetry.
  rewrite H. apply tokens_join. exact (leaf_tokens_wf (VArray inputs)).
Qed.

Lemma clsx_normal_form_witness :
  clsx [ VString "flex items-center";
         VArray [VNull; VObject [("p-4", true); ("hidden", false)]];
         VString "" ]
  = "flex items-center p-4".
Proof.
  refine (proj1 (clsx_normal_form
                   [ VString "flex items-center";
                     VArray [VNull; VObject [("p-4", true); ("hidden", false)]];
                     VString "" ] _)).
  reflexivity.
Defined.

(** X3.  Nesting is transparent: an array argument flattens exactly as
    its items written in its place. *)
Theorem clsx_nested_array_inlined (pre items post : list ClassValue) :
  clsx (pre ++ VArray items :: post) = clsx (pre ++ items ++ post).
Proof.
  unfold clsx. simpl. rewrite !map_app, !filter_app. simpl.
  destruct (filter truthy (map clsx_value items)) as [|b bs] eqn:Eb.
  - reflexivity.
  - assert (Ht : truthy (join (b :: bs)) = true).
    { apply truthy_join; [discriminate|]. rewrite <- Eb.
      apply forallb_truthy_filter. }
    rewrite Ht. apply join_splice. discriminate.
Qed.

(** X4.  The two ways the files write [cn] agree: handing the argument
    array to the variadic [clsx] (one more array level) gives the result of
    flattening the array directly. *)
Theorem cn_wrappers_agree (twMerge : string -> string) (inputs : list ClassValue) :
  cn twMerge inputs = cn_inline twMerge inputs
  /\ clsx [VArray inputs] = clsx inputs.
Proof.
  split; [apply cn_cn_inline | apply clsx_singleton].
Qed.

(* ================================================================== *)
(** * More on button groups *)
(* ================================================================== *)

Lemma mapi_from_snd {A B : Type} (g : nat -> A -> B) (l : list A) :
  forall s, map snd (mapi_from (fun i x => (g i x, x)) s l) = l.
Proof.
  induction l as [|x l IH]; intros s; simpl; [reflexivity | now rewrite IH].
Qed.

Lemma mapi_from_Forall {A B : Type} (P : B -> Prop) (f : nat -> A -> B)
  (l : list A) :
  (forall i x, P (f i x)) -> forall s, Forall P (mapi_from f s l).
Proof.
  intros H. induction l as [|x l IH]; intros s; simpl; constructor; auto.
Qed.

Lemma filter_nil_iff {A : Type} (f : A -> bool) (l : list A) :
  filter f l = [] <-> forall x, In x l -> f x = false.
Proof.
  induction l as [|x l IH]; simpl.
  - split; [intros _ y [] | reflexivity].
  - destruct (f x) eqn:E; split.
    + discriminate.
    + intros H. specialize (H x (or_introl eq_refl)). congruence.
    + intros H y [<-|Hy]; [exact E | now apply IH].
    + intros H. apply IH. auto.
Qed.

(** X5.  [Button.tsx]'s [ButtonGroup] renders its [Button] children, in
    their order, each inside a provider with [isGrouped] set; every other
    child is dropped, and the group renders nothing exactly when no child
    is a [Button].  The context-based [ButtonGroup] keeps every element
    child, of whatever component, and drops text only. *)
Theorem ButtonGroup_children_kept
  (props : GroupedButton.ButtonGroupProps) (children : list React.child) :
  (ButtonTsx.ButtonGroup children = None
   <-> forall c, In c children -> React.isButton c = false)
  /\ (forall providers,
        ButtonTsx.ButtonGroup children = Some providers ->
        map snd providers = filter React.isButton children
        /\ Forall (fun pc => ButtonTsx.isGrouped (fst pc) = true) providers)
  /\ map snd (GroupedButton.ButtonGroup props children)
     = filter React.isValidElement children
  /\ Forall (fun pc => GroupedButton.isGrouped (fst pc) = true)
            (GroupedButton.ButtonGroup props children).
Proof.
  unfold ButtonTsx.ButtonGroup, GroupedButton.ButtonGroup, mapi.
  split; [|split; [|split]].
  - rewrite <- filter_nil_iff.
    destruct (filter React.isButton children); simpl; split;
      congruence || discriminate.
  - intros providers H.
    destruct (Nat.eqb (length (filter React.isButton children)) 0);
      [discriminate|].
    injection H as <-. split.
    + apply (mapi_from_snd
               (fun i _ =>
                  {| ButtonTsx.isGrouped := true;
                     ButtonTsx.groupPosition :=
                       Some (ButtonTsx.position_at
                               (length (filter React.isButton children)) i) |})).
    + now apply mapi_from_Forall.
  - apply (mapi_from_snd
             (fun i _ =>
                {| GroupedButton.isGrouped := true;
                   GroupedButton.groupDirection := _;
                   GroupedButton.groupRadius := _;
                   GroupedButton.groupPosition := _;
                   GroupedButton.groupColor := _;
                   GroupedButton.groupVariant := _;
                   GroupedButton.groupActiveColor := _ |})).
  - now apply mapi_from_Forall.
Qed.

Lemma ButtonTsx_tags_from {A : Type} (n : nat) (l : list A) :
  forall s, 1 <= s -> l <> [] -> s + length l = n ->
            mapi_from (fun i _ => Some (ButtonTsx.position_at n i)) s l
            = (repeat (Some ButtonTsx.middle) (length l - 1)
               ++ [Some ButtonTsx.last])%list.
Proof.
  induction l as [|x l IH]; intros s Hs Hne Hlen; [congruence|].
  simpl in Hlen. simpl mapi_from.
  unfold ButtonTsx.position_at at 1.
  destruct (Nat.eqb_spec n 1) as [E|_]; [lia|].
  destruct (Nat.eqb_spec s 0) as [E|_]; [lia|].
  destruct l as [|y l].
  - simpl. destruct (Nat.eqb_spec s (n - 1)) as [_|E]; [reflexivity|].
    simpl in Hlen. lia.
  - destruct (Nat.eqb_spec s (n - 1)) as [E|_]; [simpl in Hlen; lia|].
    rewrite (IH (S s)) by (simpl in *; lia || discriminate).
    simpl. now rewrite Nat.sub_0_r.
Qed.

Lemma GroupedButton_tags_from {A : Type} (n : nat) (l : list A) :
  forall s, 1 <= s -> l <> [] -> s + length l = n ->
            mapi_from (fun i _ => GroupedButton.position_at n i) s l
            = (repeat GroupedButton.middle (length l - 1)
               ++ [GroupedButton.last])%list.
Proof.
  induction l as [|x l IH]; intros s Hs Hne Hlen; [congruence|].
  simpl in Hlen. simpl mapi_from.
  unfold GroupedButton.position_at at 1.
  destruct (Nat.eqb_spec s 0) as [E|_]; [lia|].
  destruct l as [|y l].
  - simpl. destruct (Nat.eqb_spec s (n - 1)) as [_|E]; [reflexivity|].
    simpl in Hlen. lia.
  - destruct (Nat.eqb_spec s (n - 1)) as [E|_]; [simpl in Hlen; lia|].
    rewrite (IH (S s)) by (simpl in *; lia || discriminate).
    simpl. now rewrite Nat.sub_0_r.
Qed.

(** X6.  In a group of [n >= 2] tagged children both [ButtonGroup]s give
    [first] to the child at index 0, [last] to the child at index [n - 1]
    and [middle] to every child between them; [single] does not occur. *)
Theorem ButtonGroup_tags_of_larger_groups
  (props : GroupedButton.ButtonGroupProps) (children : list React.child) :
  (2 <= length (filter React.isButton children) ->
   ButtonTsx.positions children
   = Some ButtonTsx.first
     :: repeat (Some ButtonTsx.middle)
               (length (filter React.isButton children) - 2)
     ++ [Some ButtonTsx.last])
  /\ (2 <= length (filter React.isValidElement children) ->
      GroupedButton.positions props children
      = GroupedButton.first
        :: repeat GroupedButton.middle
                  (length (filter React.isValidElement children) - 2)
        ++ [GroupedButton.last]).
Proof.
  split; intros Hn.
  - unfold ButtonTsx.positions, ButtonTsx.ButtonGroup, mapi.
    destruct (Nat.eqb_spec (length (filter React.isButton children)) 0);
      [lia|].
    rewrite mapi_from_map. simpl.
    destruct (filter React.isButton children) as [|b rest]; [simpl in Hn; lia|].
    simpl mapi_from. unfold ButtonTsx.position_at at 1.
    simpl length in *.
    destruct (Nat.eqb_spec (S (length rest)) 1); [lia|]. simpl. f_equal.
    rewrite (ButtonTsx_tags_from (S (length rest)) rest 1);
      [| lia | destruct rest; [simpl in Hn; lia | discriminate] | lia].
    reflexivity || (f_equal; f_equal; lia).
  - unfold GroupedButton.positions, GroupedButton.ButtonGroup, mapi.
    rewrite mapi_from_map. simpl.
    destruct (filter React.isValidElement children) as [|b rest];
      [simpl in Hn; lia|].
    simpl mapi_from. unfold GroupedButton.position_at at 1.
    simpl length in *. simpl. f_equal.
    rewrite (GroupedButton_tags_from (S (length rest)) rest 1);
      [| lia | destruct rest; [simpl in Hn; lia | discriminate] | lia].
    reflexivity || (f_equal; f_equal; lia).
Qed.

Lemma ButtonGroup_tags_of_larger_groups_witness :
  ButtonTsx.positions
    [React.Element React.ButtonComponent 0; React.Element React.ButtonComponent 1;
     React.Text "|"; React.Element React.ButtonComponent 2;
     React.Element React.ButtonComponent 3]
  = [Some ButtonTsx.first; Some ButtonTsx.middle; Some ButtonTsx.middle;
     Some ButtonTsx.last].
Proof.
  refine (proj1 (ButtonGroup_tags_of_larger_groups
                   {| GroupedButton.direction := None;
                      GroupedButton.radius := None;
                      GroupedButton.color := None;
                      GroupedButton.variant := None;
                      GroupedButton.activeColor := None |}
                   [React.Element React.ButtonComponent 0;
                    React.Element React.ButtonComponent 1;
                    React.Text "|"; React.Element React.ButtonComponent 2;
                    React.Element React.ButtonComponent 3]) _).
  simpl. lia.
Defined.

(* ================================================================== *)
(** * More on the alert dialog *)
(* ================================================================== *)

Section FocusTrapMore.
Import AlertDialog.

Lemma node_eqb_eq (a b : node) : node_eqb a b = true <-> a = b.
Proof.
  destruct a, b; simpl; try (split; [discriminate | congruence]).
  - rewrite Nat.eqb_eq. split; congruence.
  - tauto.
  - rewrite Nat.eqb_eq. split; congruence.
Qed.

Lemma is_active_false (st : state) (i : nat) :
  activeElement st <> Some (Descendant i) -> is_active st i = false.
Proof.
  intros H. unfold is_active. destruct (activeElement st) as [n|]; [|reflexivity].
  apply not_true_is_false. intros E. apply node_eqb_eq in E. congruence.
Qed.

(** The handler changes nothing but the active element. *)
Lemma keydown_after (event : KeyboardEvent) (st : state) :
  after (keydown event st) = st
  \/ exists n, after (keydown event st) = focus n st.
Proof.
  unfold keydown, handleKeyDown.
  destruct (listening st); [|now left].
  destruct (String.eqb (key event) "Escape"); [now left|].
  destruct (String.eqb (key event) "Tab"); [|now left].
  destruct (dialogRef st) as [els|]; [|now left].
  destruct (querySelectorAll matches_tabbable els) as [|f rest]; [now left|].
  destruct (shiftKey event);
    match goal with
    | |- context [is_active st ?i] => destruct (is_active st i)
    end; simpl; eauto.
Qed.

Lemma keydown_keeps (event : KeyboardEvent) (st : state) :
  triggerElementRef (after (keydown event st)) = triggerElementRef st
  /\ listening (after (keydown event st)) = listening st
  /\ dialogRef (after (keydown event st)) = dialogRef st.
Proof.
  destruct (keydown_after event st) as [->|[n ->]];
    [repeat split | apply focus_keeps].
Qed.

Lemma keydowns_keeps (events : list KeyboardEvent) :
  forall st,
    triggerElementRef (fst (AlertDialogEvents.keydowns events st))
    = triggerElementRef st
    /\ listening (fst (AlertDialogEvents.keydowns events st)) = listening st
    /\ dialogRef (fst (AlertDialogEvents.keydowns events st)) = dialogRef st.
Proof.
  induction events as [|event events IH]; intros st; [now repeat split|].
  simpl. destruct (keydown_keeps event st) as [Ht [Hl Hd]].
  specialize (IH (after (keydown event st))).
  destruct (AlertDialogEvents.keydowns events (after (keydown event st)))
    as [st' n].
  simpl in *. destruct IH as [IHt [IHl IHd]]. repeat split; congruence.
Qed.

(** X7.  Opening the dialog with some element focused, handling any run of
    key events, and running the cleanup gives the focus back to that
    element, which is one that accepts the focus (an element of the page
    outside the dialog does), and leaves the listener detached. *)
Theorem close_restores_focus
  (st : state) (els : list element) (n : node) (events : list KeyboardEvent) :
  activeElement st = Some n ->
  dialogRef st = Some els ->
  accepts_focus st n = true ->
  let closed :=
    effect_cleanup (fst (AlertDialogEvents.keydowns events (open_dialog st))) in
  activeElement closed = Some n /\ listening closed = false.
Proof.
  intros Ha Href Hn closed. subst closed.
  destruct (keydowns_keeps events (open_dialog st)) as [Ht [_ Hd]].
  destruct (open_dialog_focus st els Href) as [Hopen [_ [Hdopen _]]].
  set (final := fst (AlertDialogEvents.keydowns events (open_dialog st))) in *.
  unfold effect_cleanup. rewrite Ht, Hopen, Ha.
  destruct (focus_keeps n
              {| activeElement := activeElement final;
                 triggerElementRef := Some n;
                 listening := false;
                 dialogRef := dialogRef final |}) as [_ [Hl _]].
  rewrite Hl, focus_activeElement.
  rewrite (accepts_focus_dialogRef st) by (simpl; congruence).
  rewrite Hn. split; reflexivity.
Qed.

Lemma close_restores_focus_witness :
  let els := dialog_descendants [] []
               [ {| label := "OK"; variant := None; color := None;
                    loading := false; disabled := false; isDefault := false;
                    isDestructive := false |} ] in
  let st := {| activeElement := Some (Outside 7);
               triggerElementRef := None;
               listening := false;
               dialogRef := Some els |} in
  activeElement
    (effect_cleanup
       (fst (AlertDialogEvents.keydowns
               [ {| key := "Tab"; shiftKey := false |};
                 {| key := "Tab"; shiftKey := true |};
                 {| key := "Escape"; shiftKey := false |} ]
               (open_dialog st))))
  = Some (Outside 7).
Proof.
  intros els st.
  exact (proj1 (close_restores_focus st els (Outside 7)
                  [ {| key := "Tab"; shiftKey := false |};
                    {| key := "Tab"; shiftKey := true |};
                    {| key := "Escape"; shiftKey := false |} ]
                  eq_refl eq_refl eq_refl)).
Defined.

(** X8.  The handler only acts at the two ends: Tab with the focus
    anywhere but on the last focusable descendant, Shift+Tab with the focus
    anywhere but on the first, and either of them when nothing is
    focusable, move no focus and cancel nothing.  In particular a focus
    that is outside the dialog is not brought back in. *)
Theorem tab_elsewhere_not_intercepted
  (st : state) (els : list element) (shift : bool) :
  listening st = true ->
  dialogRef st = Some els ->
  (forall l, last_match matches_tabbable els l ->
             activeElement st <> Some (Descendant l) ->
             keydown {| key := "Tab"; shiftKey := false |} st = unhandled st)
  /\ (forall f, first_match matches_tabbable els f ->
                activeElement st <> Some (Descendant f) ->
                keydown {| key := "Tab"; shiftKey := true |} st = unhandled st)
  /\ (no_match matches_tabbable els ->
      keydown {| key := "Tab"; shiftKey := shift |} st = unhandled st).
Proof.
  intros Hlisten Href.
  unfold keydown, handleKeyDown. rewrite Hlisten, Href. simpl.
  unfold querySelectorAll. split; [|split].
  - intros l Hl Hactive.
    destruct (first_match_exists matches_tabbable els l (proj1 Hl)) as [f Hf].
    destruct (select_from_first matches_tabbable els 0 f Hf) as [rest Hsel].
    pose proof (select_from_last matches_tabbable els 0 l f Hl) as Hlast.
    simpl in Hsel, Hlast. rewrite Hsel in *. rewrite Hlast.
    now rewrite (is_active_false st l Hactive).
  - intros f Hf Hactive.
    destruct (select_from_first matches_tabbable els 0 f Hf) as [rest Hsel].
    simpl in Hsel. rewrite Hsel.
    now rewrite (is_active_false st f Hactive).
  - intros Hno. now rewrite (select_from_none matches_tabbable els Hno).
Qed.

Lemma tab_elsewhere_not_intercepted_witness :
  let els := dialog_descendants [] []
               [ {| label := "OK"; variant := None; color := None;
                    loading := false; disabled := false; isDefault := false;
                    isDestructive := false |} ] in
  let st := {| activeElement := Some (Outside 7);
               triggerElementRef := Some (Outside 7);
               listening := true;
               dialogRef := Some els |} in
  keydown {| key := "Tab"; shiftKey := true |} st = unhandled st.
Proof.
  intros els st.
  destruct (tab_elsewhere_not_intercepted st els true eq_refl eq_refl)
    as [_ [Hshift _]].
  apply (Hshift 0).
  - split.
    + eexists. split; reflexivity.
    + intros j Hj. lia.
  - discriminate.
Defined.

Lemma keydowns_close_calls (events : list KeyboardEvent) :
  forall st,
    snd (AlertDialogEvents.keydowns events st)
    = if listening st
      then length (filter AlertDialogEvents.is_escape events)
      else 0.
Proof.
  induction events as [|event events IH]; intros st.
  - simpl. now destruct (listening st).
  - simpl. destruct (keydown_keeps event st) as [_ [Hl _]].
    specialize (IH (after (keydown event st))). rewrite Hl in IH.
    destruct (AlertDialogEvents.keydowns events (after (keydown event st)))
      as [st' n].
    simpl in *. subst n.
    unfold keydown, handleKeyDown, AlertDialogEvents.is_escape.
    destruct (listening st); [|reflexivity].
    destruct (String.eqb (key event) "Escape"); [reflexivity|].
    destruct (String.eqb (key event) "Tab"); [|reflexivity].
    destruct (dialogRef st) as [els|]; [|reflexivity].
    destruct (querySelectorAll matches_tabbable els) as [|f rest];
      [reflexivity|].
    destruct (shiftKey event);
      match goal with
      | |- context [is_active st ?i] => destruct (is_active st i)
      end; reflexivity.
Qed.

(** X9.  While the listener is attached, a run of key events calls the
    close callback once for every Escape in it and for no other key; once
    the cleanup has run, no key calls it. *)
Theorem escape_closes_once_per_press
  (st : state) (events : list KeyboardEvent) :
  (listening st = true ->
   snd (AlertDialogEvents.keydowns events st)
   = length (filter AlertDialogEvents.is_escape events))
  /\ snd (AlertDialogEvents.keydowns events (effect_cleanup st)) = 0.
Proof.
  split.
  - intros Hl. now rewrite keydowns_close_calls, Hl.
  - rewrite keydowns_close_calls. unfold effect_cleanup.
    destruct (triggerElementRef st) as [n|]; [|reflexivity].
    match goal with
    | |- context [focus n ?s] => destruct (focus_keeps n s) as [_ [Hl _]]
    end.
    now rewrite Hl.
Qed.

Lemma escape_closes_once_per_press_witness :
  snd (AlertDialogEvents.keydowns
         [ {| key := "Escape"; shiftKey := false |};
           {| key := "a"; shiftKey := false |};
           {| key := "Escape"; shiftKey := true |} ]
         {| activeElement := None; triggerElementRef := None;
            listening := true; dialogRef := None |})
  = 2.
Proof.
  exact (proj1 (escape_closes_once_per_press
                  {| activeElement := None; triggerElementRef := None;
                     listening := true; dialogRef := None |}
                  [ {| key := "Escape"; shiftKey := false |};
                    {| key := "a"; shiftKey := false |};
                    {| key := "Escape"; shiftKey := true |} ])
               eq_refl).
Defined.

End FocusTrapMore.

Section DefaultButton.
Import AlertDialog.


Lemma select_from_all_false (sel : element -> bool) (a : list element) :
  (forall e, In e a -> sel e = false) -> forall s, select_from sel s a = [].
Proof.
  induction a as [|e a IH]; intros H s; simpl; [reflexivity|].
  rewrite (H e (or_introl eq_refl)). apply IH.
  intros e' He'. apply H. now right.
Qed.






(** X11.  The close button is the first focusable descendant of every
    rendered dialog, so the first focus never falls back to the container;
    a dialog without actions whose title and description hold no element
    marked default focuses the close button. *)
Theorem close_button_is_first_focusable
  (title description : list element) (actions : list AlertDialogAction) :
  let els := dialog_descendants title description actions in
  querySelector matches_focusable els = Some 0
  /\ hd_error (querySelectorAll matches_tabbable els) = Some 0
  /\ initial_focus els <> Container
  /\ (actions = [] ->
      (forall e, In e title -> matches_default e = false) ->
      (forall e, In e description -> matches_default e = false) ->
      initial_focus els = Descendant 0).
Proof.
  intros els.
  assert (Hq : querySelector matches_focusable els = Some 0) by reflexivity.
  split; [exact Hq|]. split; [reflexivity|]. split.
  - unfold initial_focus. rewrite Hq.
    destruct (querySelector matches_default els); discriminate.
  - intros -> Htitle Hdesc. unfold initial_focus. rewrite Hq.
    assert (querySelector matches_default els = None) as ->; [|reflexivity].
    unfold querySelector, querySelectorAll.
    rewrite select_from_all_false; [reflexivity|].
    subst els. unfold dialog_descendants. intros e He.
    apply in_app_or in He as [He|He].
    { simpl in He. repeat (destruct He as [<-|He]; [reflexivity|]). destruct He. }
    destruct He as [<-|He]; [reflexivity|].
    apply in_app_or in He as [He|He]; [now apply Htitle|].
    destruct He as [<-|He]; [reflexivity|].
    apply in_app_or in He as [He|He]; [now apply Hdesc|].
    destruct He as [<-|[]]. reflexivity.
Qed.

End DefaultButton.

Section EffectRerun.
Import AlertDialog.



Lemma close_button_is_first_focusable_witness :
  initial_focus (dialog_descendants [plain "em"] [] []) = Descendant 0.
Proof.
  apply (proj2 (proj2 (proj2 (close_button_is_first_focusable
                                [plain "em"] [] [])))).
  - reflexivity.
  - intros e [<-|[]]. reflexivity.
  - intros e [].
Defined.

End EffectRerun.

Lemma ButtonGroup_children_kept_witness :
  ButtonTsx.ButtonGroup [React.Text "a"; React.Element (React.OtherComponent "span") 0]
  = None
  /\ map snd (GroupedButton.ButtonGroup
                {| GroupedButton.direction := None; GroupedButton.radius := None;
                   GroupedButton.color := None; GroupedButton.variant := None;
                   GroupedButton.activeColor := None |}
                [React.Text "a"; React.Element (React.OtherComponent "span") 0])
     = [React.Element (React.OtherComponent "span") 0].
Proof.
  destruct (ButtonGroup_children_kept
              {| GroupedButton.direction := None; GroupedButton.radius := None;
                 GroupedButton.color := None; GroupedButton.variant := None;
                 GroupedButton.activeColor := None |}
              [React.Text "a"; React.Element (React.OtherComponent "span") 0])
    as [Hnone [_ [Hkept _]]].
  split; [|exact Hkept].
  apply Hnone. intros c [<-|[<-|[]]]; reflexivity.
Defined.

(* ================================================================== *)
(** * More on button classes *)
(* ================================================================== *)

Lemma AlertDialogButton_variantMap_blue (c : string) (v : NotFoundPage.ButtonVariant) :
  AlertDialogButton.variantMap c v = AlertDialogButton.variantMap "blue" v.
Proof.
  destruct v; try reflexivity; unfold AlertDialogButton.variantMap,
    AlertDialogButton.colorMap; destruct (String.eqb c "blue"); reflexivity.
Qed.

(** X12.  In [AlertDialog.tsx] the classes of a button do not depend on
    its colour: [colorMap] has the one entry [blue] and every other colour
    falls back to it.  So the button of a destructive action, for which
    the file asks [primary] and [red], gets the classes of a blue primary
    button, and an action's [color] changes nothing. *)
Theorem alert_dialog_button_color_ignored
  (twMerge : string -> string) (p : NotFoundPage.ButtonProps)
  (c : option string) (className : option string)
  (a : AlertDialog.AlertDialogAction) :
  AlertDialogButton.getButtonClasses twMerge (NotFoundPage.with_color p c)
  = AlertDialogButton.getButtonClasses twMerge p
  /\ AlertDialogButton.Button_className twMerge (NotFoundPage.with_color p c)
                                        className
     = AlertDialogButton.Button_className twMerge p className
  /\ AlertDialogButton.action_className twMerge a
     = AlertDialogButton.action_className twMerge
         {| AlertDialog.label := AlertDialog.label a;
            AlertDialog.variant :=
              if AlertDialog.isDestructive a then Some NotFoundPage.primary
              else AlertDialog.variant a;
            AlertDialog.color := c;
            AlertDialog.loading := AlertDialog.loading a;
            AlertDialog.disabled := AlertDialog.disabled a;
            AlertDialog.isDefault := AlertDialog.isDefault a;
            AlertDialog.isDestructive := false |}.
Proof.
  assert (Hg : forall q q',
             NotFoundPage.variant q = NotFoundPage.variant q' ->
             NotFoundPage.size q = NotFoundPage.size q' ->
             NotFoundPage.shape q = NotFoundPage.shape q' ->
             NotFoundPage.loading q = NotFoundPage.loading q' ->
             NotFoundPage.disabled q = NotFoundPage.disabled q' ->
             AlertDialogButton.getButtonClasses twMerge q
             = AlertDialogButton.getButtonClasses twMerge q').
  { intros q q' Hv Hs Hsh Hl Hd. unfold AlertDialogButton.getButtonClasses.
    rewrite Hv, Hs, Hsh, Hl, Hd.
    rewrite (AlertDialogButton_variantMap_blue
               (match NotFoundPage.color q with Some c0 => c0 | None => "blue" end)).
    rewrite (AlertDialogButton_variantMap_blue
               (match NotFoundPage.color q with Some c0 => c0 | None => "blue" end)
               NotFoundPage.primary).
    rewrite (AlertDialogButton_variantMap_blue
               (match NotFoundPage.color q' with Some c0 => c0 | None => "blue" end)).
    rewrite (AlertDialogButton_variantMap_blue
               (match NotFoundPage.color q' with Some c0 => c0 | None => "blue" end)
               NotFoundPage.primary).
    reflexivity. }
  assert (Hb : forall q q' cls,
             NotFoundPage.variant q = NotFoundPage.variant q' ->
             NotFoundPage.size q = NotFoundPage.size q' ->
             NotFoundPage.shape q = NotFoundPage.shape q' ->
             NotFoundPage.loading q = NotFoundPage.loading q' ->
             NotFoundPage.disabled q = NotFoundPage.disabled q' ->
             AlertDialogButton.Button_className twMerge q cls
             = AlertDialogButton.Button_className twMerge q' cls).
  { intros q q' cls Hv Hs Hsh Hl Hd. unfold AlertDialogButton.Button_className.
    rewrite Hv, Hs, Hsh, Hl, Hd. do 3 f_equal. now apply Hg. }
  split; [now apply Hg|]. split; [now apply Hb|].
  unfold AlertDialogButton.action_className. apply Hb;
    unfold AlertDialogButton.action_props; simpl; try reflexivity.
  destruct (AlertDialog.isDestructive a); reflexivity.
Qed.

Lemma In_existsb_eqb (t : string) (l : list string) :
  In t l <-> existsb (String.eqb t) l = true.
Proof.
  rewrite existsb_exists. split.
  - intros H. exists t. split; [exact H | apply String.eqb_refl].
  - intros [u [Hu E]]. apply String.eqb_eq in E. now subst.
Qed.

(** The tokens of the six arguments [getButtonClasses] hands to [cn]. *)
Lemma NotFoundPage_getButtonClasses_tokens (p : NotFoundPage.ButtonProps) :
  exists plain_part,
    (forall twMerge,
        NotFoundPage.getButtonClasses twMerge p
        = twMerge (join (plain_part
                         ++ (if NotFoundPage.disabled p || NotFoundPage.loading p
                             then ["opacity-50"; "cursor-not-allowed"] else [])
                         ++ (if NotFoundPage.loading p
                             then ["pointer-events-none"] else []))))
    /\ forallb is_token plain_part = true
    /\ existsb (String.eqb "opacity-50") plain_part = false
    /\ existsb (String.eqb "cursor-not-allowed") plain_part = false
    /\ existsb (String.eqb "pointer-events-none") plain_part = false.
Proof.
  set (variant := match NotFoundPage.variant p with
                  | Some v => v | None => NotFoundPage.primary end).
  set (size := match NotFoundPage.size p with
               | Some s => s | None => NotFoundPage.md end).
  set (color := match NotFoundPage.color p with
                | Some c => c | None => NotFoundPage.default_color end).
  set (shape := match NotFoundPage.shape p with
                | Some s => s | None => NotFoundPage.rounded end).
  set (fvc := or_else (NotFoundPage.variantMap color variant)
                      (NotFoundPage.variantMap color NotFoundPage.primary)).
  exists (tokens NotFoundPage.base
          ++ tokens (NotFoundPage.sizeClasses size)
          ++ tokens (NotFoundPage.shapeClasses shape)
          ++ tokens fvc)%list.
  split; [|split; [|split; [|split]]].
  - intros twMerge. unfold NotFoundPage.getButtonClasses, cn.
    fold variant size color shape fvc. f_equal.
    rewrite clsx_singleton.
    set (args := [ VString NotFoundPage.base;
                   VString (NotFoundPage.sizeClasses size);
                   VString (NotFoundPage.shapeClasses shape);
                   VString fvc;
                   VString (if NotFoundPage.disabled p || NotFoundPage.loading p
                            then "opacity-50 cursor-not-allowed" else "");
                   VString (if NotFoundPage.loading p
                            then "pointer-events-none" else "") ]).
    assert (Hn : normalized_leaves (VArray args) = true).
    { subst args fvc. unfold NotFoundPage.variantMap, NotFoundPage.colorMap.
      destruct variant, size, shape,
        (String.eqb color "blue"), (String.eqb color "gray"),
        (NotFoundPage.disabled p), (NotFoundPage.loading p);
        vm_compute; reflexivity. }
    rewrite (clsx_value_normal_form (VArray args) Hn). f_equal.
    subst args. cbn [leaf_tokens flat_map]. rewrite app_nil_r, !app_assoc.
    destruct (NotFoundPage.disabled p), (NotFoundPage.loading p); reflexivity.
  - rewrite !forallb_app. now rewrite !tokens_wf.
  - rewrite !existsb_app. subst fvc.
    unfold NotFoundPage.variantMap, NotFoundPage.colorMap.
    destruct variant, size, shape,
      (String.eqb color "blue"), (String.eqb color "gray"); vm_compute;
      reflexivity.
  - rewrite !existsb_app. subst fvc.
    unfold NotFoundPage.variantMap, NotFoundPage.colorMap.
    destruct variant, size, shape,
      (String.eqb color "blue"), (String.eqb color "gray"); vm_compute;
      reflexivity.
  - rewrite !existsb_app. subst fvc.
    unfold NotFoundPage.variantMap, NotFoundPage.colorMap.
    destruct variant, size, shape,
      (String.eqb color "blue"), (String.eqb color "gray"); vm_compute;
      reflexivity.
Qed.

(** X13.  What the object-argument [getButtonClasses] hands to [twMerge]
    is a class string in normal form that holds the tokens [opacity-50]
    and [cursor-not-allowed] exactly when [disabled] or [loading] is set,
    and the token [pointer-events-none] exactly when [loading] is set,
    whatever the variant, size, colour and shape. *)
Theorem getButtonClasses_disabled_styling (p : NotFoundPage.ButtonProps) :
  exists classes,
    (forall twMerge, NotFoundPage.getButtonClasses twMerge p = twMerge classes)
    /\ normalized classes = true
    /\ (In "opacity-50" (tokens classes)
        <-> NotFoundPage.disabled p || NotFoundPage.loading p = true)
    /\ (In "cursor-not-allowed" (tokens classes)
        <-> NotFoundPage.disabled p || NotFoundPage.loading p = true)
    /\ (In "pointer-events-none" (tokens classes)
        <-> NotFoundPage.loading p = true).
Proof.
  destruct (NotFoundPage_getButtonClasses_tokens p)
    as [plain_part [Hcn [Hwf [Ho [Hc Hp]]]]].
  set (l := (plain_part
             ++ (if NotFoundPage.disabled p || NotFoundPage.loading p
                 then ["opacity-50"; "cursor-not-allowed"] else [])
             ++ (if NotFoundPage.loading p
                 then ["pointer-events-none"] else []))%list) in *.
  assert (Hl : forallb is_token l = true).
  { subst l. rewrite !forallb_app, Hwf.
    destruct (NotFoundPage.disabled p), (NotFoundPage.loading p); reflexivity. }
  exists (join l). split; [exact Hcn|]. split.
  - apply String.eqb_eq. now rewrite (tokens_join l Hl).
  - rewrite (tokens_join l Hl), !In_existsb_eqb. subst l.
    rewrite !existsb_app, Ho, Hc, Hp.
    destruct (NotFoundPage.disabled p), (NotFoundPage.loading p); simpl;
      repeat split; congruence.
Qed.

(* ================================================================== *)
(** * [Button.tsx]: shape, element and attributes *)
(* ================================================================== *)

(** X14.  A [Button] that is alone in its [ButtonGroup], a [ghost] or
    [link] button in any group, and a button outside a group all get the
    plain shape class of their [shape]: the group styling (side rounding,
    divider border) is not applied to them. *)
Theorem lone_or_flat_button_keeps_shape
  (cn : list ClassValue -> string)
  (shape : FlextailUtils.ButtonShape) (variant : FlextailUtils.ButtonVariant)
  (context : ButtonTsx.ButtonGroupContextProps)
  (children : list React.child) :
  (length (filter React.isButton children) = 1 ->
   forall providers pc,
     ButtonTsx.ButtonGroup children = Some providers ->
     In pc providers ->
     ButtonRender.shapeClass cn shape variant (fst pc)
     = ButtonRender.shapeStyles shape)
  /\ (ButtonRender.is_ghost_or_link variant = true ->
      ButtonRender.shapeClass cn shape variant context
      = ButtonRender.shapeStyles shape)
  /\ ButtonRender.shapeClass cn shape variant ButtonRender.defaultContext
     = ButtonRender.shapeStyles shape.
Proof.
  split; [|split].
  - intros Hone providers pc Hgroup Hin.
    unfold ButtonTsx.ButtonGroup in Hgroup. rewrite Hone in Hgroup.
    destruct (filter React.isButton children) as [|b [|b' l]];
      try discriminate.
    simpl in Hgroup. injection Hgroup as <-.
    destruct Hin as [<-|[]]. reflexivity.
  - intros Hv. unfold ButtonRender.shapeClass. rewrite Hv.
    rewrite orb_true_r. simpl. now rewrite andb_false_r.
  - reflexivity.
Qed.

Lemma lone_or_flat_button_keeps_shape_witness :
  ButtonRender.shapeClass clsx FlextailUtils.circle FlextailUtils.link
    {| ButtonTsx.isGrouped := true;
       ButtonTsx.groupPosition := Some ButtonTsx.middle |}
  = "rounded-full aspect-square".
Proof.
  refine (proj1 (proj2 (lone_or_flat_button_keeps_shape
                          clsx FlextailUtils.circle FlextailUtils.link
                          {| ButtonTsx.isGrouped := true;
                             ButtonTsx.groupPosition := Some ButtonTsx.middle |}
                          [])) _).
  reflexivity.
Defined.

Section JsObjectFacts.
Import JsObject.

Lemma get_app (k : string) (a b : object) :
  get k (a ++ b)%list
  = match get k b with Some w => Some w | None => get k a end.
Proof.
  induction a as [|[k' v] a IH]; simpl.
  - now destruct (get k b).
  - rewrite IH. now destruct (get k b).
Qed.

Lemma get_remove (k k' : string) (o : object) :
  get k (remove k' o) = if String.eqb k' k then None else get k o.
Proof.
  induction o as [|[k0 v] o IH]; simpl.
  - now destruct (String.eqb k' k).
  - destruct (String.eqb k' k0) eqn:E0; simpl; rewrite IH.
    + apply String.eqb_eq in E0. subst k0.
      destruct (String.eqb k' k) eqn:E; [reflexivity|].
      rewrite String.eqb_sym, E. now destruct (get k o).
    + destruct (String.eqb k' k) eqn:E; [|reflexivity].
      apply String.eqb_eq in E. subst k'.
      rewrite E0. reflexivity.
Qed.

Lemma get_rest_without (k : string) (names : list string) :
  forall o,
    get k (rest_without names o)
    = if existsb (String.eqb k) names then None else get k o.
Proof.
  unfold rest_without.
  induction names as [|n names IH]; intros o; simpl; [reflexivity|].
  rewrite IH, get_remove. rewrite (String.eqb_sym n k).
  destruct (String.eqb k n); simpl; [|reflexivity].
  now destruct (existsb (String.eqb k) names).
Qed.

End JsObjectFacts.

(** X15.  With an [href] the [Button] is an anchor that opens in a new tab
    ([target="_blank"], [rel="noopener noreferrer"], whatever the caller
    passed for them) and never carries [disabled], even when [disabled] or
    [loading] is set.  Without one it is a [<button>] whose [disabled] is
    [disabled || loading] and which never carries [href], [target] or
    [rel].  Any other property the caller passed reaches the element
    unchanged. *)
Theorem Button_element_attributes
  (props : JsObject.object) (ref onClick : JsObject.value) (className : string)
  (loading disabled : bool) (href : option string)
  (type : option FlextailUtils.ButtonType) (k : string) :
  let attrs :=
    ButtonRender.elementProps props ref onClick className loading disabled
                              href type in
  (forall h, href = Some h -> truthy h = true ->
             ButtonRender.Element href = "a"
             /\ JsObject.get "href" attrs = Some (JsObject.JString h)
             /\ JsObject.get "target" attrs = Some (JsObject.JString "_blank")
             /\ JsObject.get "rel" attrs
                = Some (JsObject.JString "noopener noreferrer")
             /\ JsObject.get "disabled" attrs = None)
  /\ (href = None \/ href = Some "" ->
      ButtonRender.Element href = "button"
      /\ JsObject.get "disabled" attrs
         = Some (JsObject.JBoolean (disabled || loading))
      /\ JsObject.get "href" attrs = None
      /\ JsObject.get "target" attrs = None
      /\ JsObject.get "rel" attrs = None)
  /\ (~ In k (ButtonRender.destructured
              ++ ["ref"; "href"; "target"; "rel"])%list ->
      JsObject.get k attrs = JsObject.get k props)
  /\ JsObject.get "className" attrs = Some (JsObject.JString className).
Proof.
  intros attrs. subst attrs. unfold ButtonRender.elementProps, ButtonRender.Element.
  split; [|split; [|split]].
  - intros h -> Hh. rewrite Hh. unfold JsObject.spread.
    rewrite !get_remove, !get_app. cbn. auto.
  - intros [-> | ->]; cbn [truthy]; unfold JsObject.spread;
      rewrite !get_remove, !get_app, !get_rest_without; cbn; auto.
  - intros Hk.
    assert (Hne : forall n, In n (ButtonRender.destructured
                                  ++ ["ref"; "href"; "target"; "rel"])%list ->
                            String.eqb k n = false).
    { intros n Hn. apply String.eqb_neq. intros ->. exact (Hk Hn). }
    assert (Hd : existsb (String.eqb k) ButtonRender.destructured = false).
    { apply not_true_is_false. intros E. apply existsb_exists in E as [n [Hn E]].
      rewrite (Hne n) in E; [discriminate|]. apply in_or_app. now left. }
    assert (Hs : forall n, In n ["ref"; "href"; "target"; "rel"; "className";
                                 "disabled"; "onClick"; "type"] ->
                           String.eqb k n = false).
    { intros n Hn. apply Hne. simpl in Hn. simpl.
      repeat (destruct Hn as [<-|Hn]; [tauto|]). destruct Hn. }
    assert (Hs' : forall n, In n ["ref"; "href"; "target"; "rel"; "className";
                                  "disabled"; "onClick"; "type"] ->
                            String.eqb n k = false).
    { intros n Hn. rewrite String.eqb_sym. now apply Hs. }
    destruct (truthy match href with Some h => h | None => "" end);
      unfold JsObject.spread;
      rewrite !get_remove, !get_app, !get_rest_without, Hd;
      cbn [JsObject.get];
      rewrite !Hs by (simpl; tauto);
      rewrite !Hs' by (simpl; tauto);
      now destruct (JsObject.get k props).
  - destruct (truthy match href with Some h => h | None => "" end);
      unfold JsObject.spread;
      rewrite !get_remove, !get_app, !get_rest_without; cbn; reflexivity.
Qed.

Lemma Button_element_attributes_witness :
  let attrs :=
    ButtonRender.elementProps
      [ ("target", JsObject.JString "_self");
        ("disabled", JsObject.JBoolean true);
        ("aria-label", JsObject.JString "Docs") ]
      (JsObject.JRef 0) JsObject.JUndefined "btn" false true
      (Some "/docs") None in
  JsObject.get "target" attrs = Some (JsObject.JString "_blank")
  /\ JsObject.get "disabled" attrs = None
  /\ JsObject.get "aria-label" attrs = Some (JsObject.JString "Docs").
Proof.
  intros attrs.
  destruct (Button_element_attributes
              [ ("target", JsObject.JString "_self");
                ("disabled", JsObject.JBoolean true);
                ("aria-label", JsObject.JString "Docs") ]
              (JsObject.JRef 0) JsObject.JUndefined "btn" false true
              (Some "/docs") None "aria-label")
    as [Hanchor [_ [Hother _]]].
  destruct (Hanchor "/docs" eq_refl eq_refl) as [_ [_ [Ht [_ Hd]]]].
  split; [exact Ht|]. split; [exact Hd|].
  subst attrs. rewrite Hother; [reflexivity|].
  simpl. intros H. repeat (destruct H as [H|H]; [discriminate|]). destruct H.
Defined.

(** X16.  The icon a [Button] renders depends on the dark mode only when
    its [icon] is a dual source whose [light] and [dark] are both given
    and truthy: with one of them missing or empty the other one is used in
    both modes.  While [loading], the icon is the spinner whatever [icon],
    [type] and the mode. *)
Theorem renderIcon_dark_mode
  (cn : list ClassValue -> string) (p : ButtonIcon.IconInputs) :
  ((forall l d, ButtonIcon.icon p = ButtonIcon.IconDual (Some l) (Some d) ->
                ButtonIcon.icon_truthy l = false
                \/ ButtonIcon.icon_truthy d = false) ->
   ButtonIcon.renderIcon cn p true = ButtonIcon.renderIcon cn p false)
  /\ (ButtonIcon.loading p = true ->
      forall darkMode,
        ButtonIcon.renderIcon cn p darkMode
        = ButtonIcon.RenderSpinner
            (ButtonRender.iconSizeStyles
               (match ButtonIcon.iconSize p with
                | Some s => s
                | None => FlextailUtils.md
                end))).
Proof.
  split.
  - intros Hdual. unfold ButtonIcon.renderIcon.
    destruct (ButtonIcon.loading p); [reflexivity|].
    destruct (ButtonIcon.icon p) as [|s|s|c cls|light dark|] eqn:Ei;
      try reflexivity.
    + destruct (match ButtonIcon.type p with
                | Some t => t | None => FlextailUtils.type_default end);
        reflexivity.
    + simpl. destruct (truthy s); [reflexivity|].
      destruct (match ButtonIcon.type p with
                | Some t => t | None => FlextailUtils.type_default end);
        reflexivity.
    + destruct light as [l|], dark as [d|]; simpl;
        unfold ButtonIcon.icon_or; simpl.
      * destruct (Hdual l d eq_refl) as [Hl|Hd].
        -- rewrite Hl. destruct (ButtonIcon.icon_truthy d) eqn:Ed;
             rewrite ?Hl, ?Ed; reflexivity.
        -- rewrite Hd. destruct (ButtonIcon.icon_truthy l) eqn:El;
             rewrite ?El, ?Hd; reflexivity.
      * destruct (ButtonIcon.icon_truthy l) eqn:El; rewrite ?El; reflexivity.
      * destruct (ButtonIcon.icon_truthy d) eqn:Ed; rewrite ?Ed; reflexivity.
      * reflexivity.
  - intros Hl darkMode. unfold ButtonIcon.renderIcon. now rewrite Hl.
Qed.

Lemma renderIcon_dark_mode_witness :
  ButtonIcon.renderIcon clsx
    {| ButtonIcon.loading := false;
       ButtonIcon.icon :=
         ButtonIcon.IconDual (Some (ButtonIcon.IconString "/sun.svg")) None;
       ButtonIcon.iconSize := None;
       ButtonIcon.alt := None;
       ButtonIcon.type := None |}
    true
  = ButtonIcon.RenderImg "/sun.svg" "Button icon" "h-6 w-6 rounded-lg".
Proof.
  rewrite (proj1 (renderIcon_dark_mode clsx _)).
  - reflexivity.
  - intros l d H. discriminate.
Defined.

(* ================================================================== *)
(** * The context-based [Button] inside its group *)
(* ================================================================== *)

Lemma ROUNDED_VALUES_named (name : string) :
  In name ["none"; "sm"; "md"; "lg"; "full"] ->
  GroupedButtonRender.ROUNDED_VALUES name = Some ("rounded-" ++ name).
Proof.
  simpl. intros H.
  repeat (destruct H as [<-|H]; [reflexivity|]). destruct H.
Qed.

(** X17.  A [Button] that is the only element of a context-based
    [ButtonGroup] is styled as the first of several: for a named group
    radius its radius class is [rounded-none rounded-l-<radius>]
    ([rounded-t-<radius>] in a vertical group) and its spacing class
    removes the right (bottom) border and margin, so only one side is
    rounded.  The button's own [radius] plays no part. *)
Theorem lone_grouped_button_is_first
  (gprops : GroupedButton.ButtonGroupProps)
  (p : GroupedButtonRender.ButtonProps)
  (children : list React.child) (name : string) :
  length (filter React.isValidElement children) = 1 ->
  In name ["none"; "sm"; "md"; "lg"; "full"] ->
  match GroupedButton.radius gprops with Some r => r | None => "md" end = name ->
  forall pc, In pc (GroupedButton.ButtonGroup gprops children) ->
    GroupedButton.groupPosition (fst pc) = GroupedButton.first
    /\ GroupedButtonRender.radiusClass p (fst pc)
       = (if GroupedButtonRender.isVertical (fst pc)
          then "rounded-none rounded-t-" ++ name
          else "rounded-none rounded-l-" ++ name)
    /\ GroupedButtonRender.groupSpacing (fst pc)
       = (if GroupedButtonRender.isVertical (fst pc)
          then "mb-0 border-b-0" else "mr-0 border-r-0").
Proof.
  intros Hone Hname Hradius pc Hin.
  unfold GroupedButton.ButtonGroup in Hin. rewrite Hone, Hradius in Hin.
  destruct (filter React.isValidElement children) as [|c [|c' l]];
    try discriminate.
  simpl in Hin. destruct Hin as [<-|[]].
  unfold GroupedButtonRender.radiusClass, GroupedButtonRender.groupSpacing,
    GroupedButtonRender.baseRadiusClass, GroupedButtonRender.isVertical.
  cbn [fst GroupedButton.isGrouped GroupedButton.groupPosition
       GroupedButton.groupRadius GroupedButton.groupDirection negb].
  rewrite (ROUNDED_VALUES_named name Hname).
  simpl in Hname.
  split; [reflexivity|]. split; [|reflexivity].
  destruct (match GroupedButton.direction gprops with
            | Some d => d | None => GroupedButton.horizontal end);
    repeat (destruct Hname as [<-|Hname]; [reflexivity|]); destruct Hname.
Qed.

Lemma lone_grouped_button_is_first_witness :
  let gprops := {| GroupedButton.direction := None;
                   GroupedButton.radius := Some "lg";
                   GroupedButton.color := None;
                   GroupedButton.variant := None;
                   GroupedButton.activeColor := None |} in
  let p := {| GroupedButtonRender.color := None;
              GroupedButtonRender.variant := None;
              GroupedButtonRender.disabled := false;
              GroupedButtonRender.radius := Some "full";
              GroupedButtonRender.active := false;
              GroupedButtonRender.activeColor := None;
              GroupedButtonRender.href := None;
              GroupedButtonRender.iconPosition := None;
              GroupedButtonRender.preset := None;
              GroupedButtonRender.className := None |} in
  Forall (fun pc =>
            GroupedButtonRender.radiusClass p (fst pc)
            = "rounded-none rounded-l-lg"
            /\ GroupedButtonRender.groupSpacing (fst pc) = "mr-0 border-r-0")
         (GroupedButton.ButtonGroup gprops
            [React.Text "only"; React.Element React.ButtonComponent 0]).
Proof.
  intros gprops p. apply Forall_forall. intros pc Hin.
  destruct (lone_grouped_button_is_first
              gprops p
              [React.Text "only"; React.Element React.ButtonComponent 0] "lg"
              eq_refl (or_intror (or_intror (or_intror (or_introl eq_refl))))
              eq_refl pc Hin)
    as [_ [Hr Hs]].
  simpl in Hin. destruct Hin as [<-|[]]. split; [exact Hr | exact Hs].
Defined.

(** X18.  Outside a [ButtonGroup] the [active] flag and [activeColor] of
    the context-based [Button] change nothing: the class arguments and the
    choice between anchor and button are those of the inactive button.
    Inside a group an active button gets the variant [primary] unless its
    variant is [binary] or [grayscale], and then no longer renders as an
    anchor. *)
Theorem active_needs_a_group
  (p : GroupedButtonRender.ButtonProps)
  (context : GroupedButton.ButtonGroupContextProps)
  (activeColor : option string) :
  let p' := {| GroupedButtonRender.color := GroupedButtonRender.color p;
               GroupedButtonRender.variant := GroupedButtonRender.variant p;
               GroupedButtonRender.disabled := GroupedButtonRender.disabled p;
               GroupedButtonRender.radius := GroupedButtonRender.radius p;
               GroupedButtonRender.active := false;
               GroupedButtonRender.activeColor := activeColor;
               GroupedButtonRender.href := GroupedButtonRender.href p;
               GroupedButtonRender.iconPosition :=
                 GroupedButtonRender.iconPosition p;
               GroupedButtonRender.preset := GroupedButtonRender.preset p;
               GroupedButtonRender.className :=
                 GroupedButtonRender.className p |} in
  (GroupedButton.isGrouped context = false ->
   GroupedButtonRender.class_arguments p context
   = GroupedButtonRender.class_arguments p' context
   /\ GroupedButtonRender.renders_anchor p context
      = GroupedButtonRender.renders_anchor p' context)
  /\ (GroupedButton.isGrouped context = true ->
      GroupedButtonRender.active p = true ->
      GroupedButtonRender.renders_anchor p context = false
      /\ In (GroupedButtonRender.finalVariant p context)
            ["primary"; "binary"; "grayscale"]).
Proof.
  intros p'. split.
  - intros Hg.
    unfold GroupedButtonRender.class_arguments, GroupedButtonRender.renders_anchor,
      GroupedButtonRender.finalColor, GroupedButtonRender.finalVariant,
      GroupedButtonRender.isActiveState, GroupedButtonRender.radiusClass,
      GroupedButtonRender.baseRadiusClass.
    rewrite Hg, !andb_false_r. split; reflexivity.
  - intros Hg Ha.
    unfold GroupedButtonRender.renders_anchor, GroupedButtonRender.finalVariant,
      GroupedButtonRender.isActiveState.
    rewrite Hg, Ha. simpl.
    destruct (String.eqb_spec (GroupedButtonRender.baseVariant p context) "binary")
      as [E|E]; simpl.
    + rewrite E. simpl. auto.
    + destruct (String.eqb_spec (GroupedButtonRender.baseVariant p context)
                                "grayscale") as [E'|E']; simpl.
      * rewrite E'. simpl. auto.
      * auto.
Qed.

Lemma active_needs_a_group_witness :
  let p := {| GroupedButtonRender.color := Some "rose";
              GroupedButtonRender.variant := Some "link";
              GroupedButtonRender.disabled := false;
              GroupedButtonRender.radius := None;
              GroupedButtonRender.active := true;
              GroupedButtonRender.activeColor := Some "blue";
              GroupedButtonRender.href := Some "/a";
              GroupedButtonRender.iconPosition := None;
              GroupedButtonRender.preset := None;
              GroupedButtonRender.className := None |} in
  GroupedButtonRender.renders_anchor p GroupedButton.defaultContext = true
  /\ GroupedButtonRender.renders_anchor p
       {| GroupedButton.isGrouped := true;
          GroupedButton.groupDirection := GroupedButton.horizontal;
          GroupedButton.groupRadius := "md";
          GroupedButton.groupPosition := GroupedButton.middle;
          GroupedButton.groupColor := None;
          GroupedButton.groupVariant := None;
          GroupedButton.groupActiveColor := None |}
     = false.
Proof.
  intros p. split.
  - rewrite (proj2 (proj1 (active_needs_a_group p GroupedButton.defaultContext
                             (Some "blue")) eq_refl)).
    reflexivity.
  - exact (proj1 (proj2 (active_needs_a_group p
                           {| GroupedButton.isGrouped := true;
                              GroupedButton.groupDirection := GroupedButton.horizontal;
                              GroupedButton.groupRadius := "md";
                              GroupedButton.groupPosition := GroupedButton.middle;
                              GroupedButton.groupColor := None;
                              GroupedButton.groupVariant := None;
                              GroupedButton.groupActiveColor := None |}
                           None) eq_refl eq_refl)).
Defined.
